(** * Face-recognition attendance: a shallow embedding of [src/main.py]

    The development follows the class [AttendanceSystem]:

    - [load_known_faces]   builds the gallery (two parallel lists);
    - [recognize_face]     nearest-neighbour match under a tolerance, followed
                           by the [Name_RollNo] label parsing;
    - [check_duplicate_attendance], [mark_attendance]
                           the ledger kept in the attendance workbook.

    What the program obtains from its libraries is taken as data:
    the face encoder (its result on an image), the per-pair distance of
    [face_recognition.face_distance] (a finite number, here a rational),
    the clock ([datetime.now()]), the webcam and the keyboard, and the
    attendance workbook with the type inference [pd.read_excel] applies to
    its columns and the failures of reading and writing it.  Console output
    is kept as a list of messages. *)

From Stdlib Require Import List String Ascii Bool Arith Lia QArith Lqa.
Import ListNotations.

Local Open Scope nat_scope.

(** ** Exceptions and results *)

Inductive exn : Type :=
| ValueError (msg : string)
| IndexError
| FileNotFoundError
| KeyError (key : string)
| OSError (msg : string).

Inductive outcome (A : Type) : Type :=
| Return (a : A)
| Raise (e : exn).

Arguments Return {A} a.
Arguments Raise {A} e.

(** ** Strings: the [str] methods the program calls *)

Module Str.

(** [c in s] for a one-character [c]. *)
Fixpoint contains (c : ascii) (s : string) : bool :=
  match s with
  | EmptyString => false
  | String a s' => if Ascii.eqb a c then true else contains c s'
  end.

(** The part of [s] before the first [c] and the part after it, when [c]
    occurs. *)
Fixpoint partition (c : ascii) (s : string) : option (string * string) :=
  match s with
  | EmptyString => None
  | String a s' =>
      if Ascii.eqb a c then Some (EmptyString, s')
      else match partition c s' with
           | Some (before, after) => Some (String a before, after)
           | None => None
           end
  end.

(** [s.split(c, 1)]: at most one split, at the first occurrence. *)
Definition split1 (c : ascii) (s : string) : list string :=
  match partition c s with
  | Some (before, after) => [before; after]
  | None => [s]
  end.

(** [s.rfind(c)], [None] standing for [-1]. *)
Fixpoint rfind (c : ascii) (s : string) : option nat :=
  match s with
  | EmptyString => None
  | String a s' =>
      match rfind c s' with
      | Some i => Some (S i)
      | None => if Ascii.eqb a c then Some 0 else None
      end
  end.

Definition lower_char (a : ascii) : ascii :=
  let n := nat_of_ascii a in
  if (65 <=? n) && (n <=? 90) then ascii_of_nat (n + 32) else a.

(** [s.lower()] on the ASCII letters; the bytes of other characters are
    left as they are. *)
Fixpoint lower (s : string) : string :=
  match s with
  | EmptyString => EmptyString
  | String a s' => String (lower_char a) (lower s')
  end.

(** [s.endswith(suffix)]. *)
Definition endswith (s suffix : string) : bool :=
  let n := String.length s in
  let k := String.length suffix in
  if n <? k then false else String.eqb (substring (n - k) k s) suffix.

(** [s.endswith(suffixes)] for a tuple of suffixes. *)
Definition endswith_any (s : string) (suffixes : list string) : bool :=
  existsb (endswith s) suffixes.

(** [s[:i]] and [s[i:]]. *)
Definition take (i : nat) (s : string) : string := substring 0 i s.
Definition drop (i : nat) (s : string) : string :=
  substring i (String.length s - i) s.

(** Whether some character of [s] differs from [c]. *)
Fixpoint has_other (c : ascii) (s : string) : bool :=
  match s with
  | EmptyString => false
  | String a s' => if Ascii.eqb a c then has_other c s' else true
  end.

End Str.

(** [os.path.splitext] on a directory entry (an entry of [os.listdir] holds no
    path separator): the extension starts at the last dot, unless only dots
    stand before it. *)
Definition splitext (p : string) : string * string :=
  match Str.rfind "."%char p with
  | Some dotIndex =>
      if Str.has_other "."%char (Str.take dotIndex p)
      then (Str.take dotIndex p, Str.drop dotIndex p)
      else (p, EmptyString)
  | None => (p, EmptyString)
  end.

(** ** The clock *)

Record datetime : Type := {
  year : nat; month : nat; day : nat;
  hour : nat; minute : nat; second : nat
}.

Definition digit (n : nat) : ascii := ascii_of_nat (48 + n mod 10).

Definition pad2 (n : nat) : string :=
  String (digit (n / 10)) (String (digit n) EmptyString).

Definition pad4 (n : nat) : string :=
  String (digit (n / 1000)) (String (digit (n / 100)) (pad2 n)).

(** [now.strftime("%Y-%m-%d")] *)
Definition strftime_date (now : datetime) : string :=
  (pad4 (year now) ++ "-" ++ pad2 (month now) ++ "-" ++ pad2 (day now))%string.

(** [now.strftime("%H:%M:%S")] *)
Definition strftime_time (now : datetime) : string :=
  (pad2 (hour now) ++ ":" ++ pad2 (minute now) ++ ":" ++ pad2 (second now))%string.

Arguments strftime_date : simpl never.
Arguments strftime_time : simpl never.

(** ** Console output *)

Inductive message : Type :=
| MsgLoadingKnownFaces
| MsgExpectedFormat
| MsgLoaded (name_part : string)
| MsgNoFaceDetectedIn (filename : string)
| MsgErrorLoading (filename err : string)
| MsgTotalLoaded (n : nat)
| MsgNoFacesDetected
| MsgFacesWarning (n : nat)
| MsgRecognized (name roll_no : string) (confidence : Q)
| MsgNotRecognized
| MsgAlreadyMarked (name roll_no : string)
| MsgMarked (name roll_no time : string)
| MsgNoKnownFaces
| MsgNoImageCaptured
| MsgStudentNotRecognized.

(** A computation that prints and may raise. *)
Definition Log (A : Type) : Type := list message * outcome A.

Definition ret {A} (a : A) : Log A := ([], Return a).
Definition throw {A} (e : exn) : Log A := ([], Raise e).
Definition print (m : message) : Log unit := ([m], Return tt).

Definition bind {A B} (c : Log A) (k : A -> Log B) : Log B :=
  match c with
  | (out, Return a) => let '(out', r) := k a in (out ++ out', r)
  | (out, Raise e) => (out, Raise e)
  end.

Notation "x <- c ;; k" := (bind c (fun x => k))
  (at level 61, c at next level, right associativity).
Notation "c ;;; k" := (bind c (fun _ => k))
  (at level 61, right associativity).

(** [l[i]] *)
Definition index {A} (l : list A) (i : nat) : Log A :=
  match nth_error l i with
  | Some a => ret a
  | None => throw IndexError
  end.

(** ** The gallery: [self.known_faces] and [self.known_names] *)

Section Recognition.

(** A face encoding (a 128-dimensional vector), opaque to the program. *)
Context {encoding : Type}.

Record AttendanceSystem : Type := {
  known_faces : list encoding;
  known_names : list string
}.

(** What [load_image_file] followed by [face_encodings] gives for a file:
    the encodings of the faces found, or an exception. *)
Inductive image_outcome : Type :=
| ImageFaces (encodings : list encoding)
| ImageError (err : string).

Definition valid_extensions : list string :=
  [".jpg"%string; ".jpeg"%string; ".png"%string].

(** One turn of the loop of [load_known_faces]. *)
Definition load_file (read : string -> image_outcome)
    (acc : AttendanceSystem * list message) (filename : string)
  : AttendanceSystem * list message :=
  let '(self, out) := acc in
  if Str.endswith_any (Str.lower filename) valid_extensions then
    match read filename with
    | ImageFaces (first :: _) =>
        let name_part := fst (splitext filename) in
        ({| known_faces := known_faces self ++ [first];
            known_names := known_names self ++ [name_part] |},
         out ++ [MsgLoaded name_part])
    | ImageFaces [] => (self, out ++ [MsgNoFaceDetectedIn filename])
    | ImageError err => (self, out ++ [MsgErrorLoading filename err])
    end
  else (self, out).

(** [load_known_faces], called by [__init__] on empty lists.  [listing] is
    [os.listdir] of the directory, [None] when the directory does not
    exist. *)
Definition load_known_faces (listing : option (list string))
    (read : string -> image_outcome) : Log AttendanceSystem :=
  match listing with
  | None => throw (ValueError "Directory not found")
  | Some filenames =>
      let '(self, out) :=
        fold_left (load_file read) filenames
          ({| known_faces := []; known_names := [] |},
           [MsgLoadingKnownFaces; MsgExpectedFormat]) in
      (out ++ [MsgTotalLoaded (List.length (known_faces self))], Return self)
  end.

(** ** The matcher *)

(** The distance of [face_recognition] between two encodings. *)
Variable distance : encoding -> encoding -> Q.

(** [face_recognition.face_distance(known, face)] *)
Definition face_distance (known : list encoding) (face : encoding) : list Q :=
  map (fun k => distance k face) known.

(** [face_recognition.compare_faces(known, face, tolerance)], which is
    [list(face_distance(known, face) <= tolerance)]. *)
Definition compare_faces (known : list encoding) (face : encoding)
    (tolerance : Q) : list bool :=
  map (fun d => Qle_bool d tolerance) (face_distance known face).

Definition Qlt_bool (x y : Q) : bool := negb (Qle_bool y x).

(** The scan of [np.argmin]: [best_i] is the position of the least value
    [best] among those seen, [i] the position of the head of [l]. *)
Fixpoint argmin_from (l : list Q) (i best_i : nat) (best : Q) : nat :=
  match l with
  | [] => best_i
  | x :: l' =>
      if Qlt_bool x best then argmin_from l' (S i) i x
      else argmin_from l' (S i) best_i best
  end.

(** [np.argmin(a)]: the first position of the minimum. *)
Definition argmin (a : list Q) : Log nat :=
  match a with
  | [] => throw (ValueError "attempt to get argmin of an empty sequence")
  | x :: l => ret (argmin_from l 1 0 x)
  end.

(** Lines 131-139 of [recognize_face]: the label [Name_RollNo]. *)
Definition parse_full_name (full_name : string) : Log (string * string) :=
  if Str.contains "_"%char full_name then
    let parts := Str.split1 "_"%char full_name in
    name <- index parts 0 ;;
    roll_no <- index parts 1 ;;
    ret (name, roll_no)
  else
    ret (full_name, "N/A"%string).

(** [recognize_face]; [face_encodings] is what the encoder found in the
    captured image. *)
Definition recognize_face (self : AttendanceSystem)
    (face_encodings : list encoding) (tolerance : Q)
  : Log (option (string * string)) :=
  match face_encodings with
  | [] => print MsgNoFacesDetected ;;; ret None
  | captured_encoding :: _ =>
      (if 1 <? List.length face_encodings
       then print (MsgFacesWarning (List.length face_encodings))
       else ret tt) ;;;
      let face_distances := face_distance (known_faces self) captured_encoding in
      let matches := compare_faces (known_faces self) captured_encoding tolerance in
      found <-
        (if existsb (fun m => m) matches then
           best_match_index <- argmin face_distances ;;
           is_match <- index matches best_match_index ;;
           if (is_match : bool) then
             d <- index face_distances best_match_index ;;
             let confidence := (1 - d)%Q in
             full_name <- index (known_names self) best_match_index ;;
             id <- parse_full_name full_name ;;
             print (MsgRecognized (fst id) (snd id) confidence) ;;;
             ret (Some id)
           else ret None
         else ret None) ;;
      match found with
      | Some id => ret (Some id)
      | None => print MsgNotRecognized ;;; ret None
      end
  end.

End Recognition.

Arguments AttendanceSystem encoding : clear implicits.
Arguments image_outcome encoding : clear implicits.

(** ** The ledger: the workbook [self.attendance_file] *)

(** The value of a cell, in the sheet and in the frame pandas makes of it:
    a [str], a number (int64 or float64), a boolean, or nothing (an empty
    cell, NaN). *)
Inductive cell : Type :=
| Text (s : string)
| Number (x : Q)
| Boolean (b : bool)
| Missing.

(** A row, columns "Roll No", "Name", "Date", "Time". *)
Record row : Type := {
  col_roll_no : cell;
  col_name : cell;
  col_date : cell;
  col_time : cell
}.

Definition DataFrame : Type := list row.

(** The attendance file: absent; or such that reading it raises an
    exception (not a workbook, no permission; for a sheet without the column
    "Roll No" or "Date", the [KeyError] of the selection that follows the
    read in [check_duplicate_attendance], after which nothing is reached);
    or a sheet of stored cells under the four columns. *)
Inductive workbook : Type :=
| NoFile
| Unreadable (e : exn)
| Sheet (cells : list row).

Section Ledger.

(** The type inference of [pd.read_excel], which the program calls without
    [dtype] and with the default [na_values]: [convert column c] is the value
    read for the stored cell [c] of a column whose stored cells are
    [column]. *)
Variable convert : list cell -> cell -> cell.

(** The row read for a stored row of a sheet. *)
Definition read_row (cells : list row) (r : row) : row :=
  {| col_roll_no := convert (map col_roll_no cells) (col_roll_no r);
     col_name := convert (map col_name cells) (col_name r);
     col_date := convert (map col_date cells) (col_date r);
     col_time := convert (map col_time cells) (col_time r) |}.

(** [pd.read_excel(self.attendance_file)] *)
Definition read_excel (file : workbook) : outcome DataFrame :=
  match file with
  | NoFile => Raise FileNotFoundError
  | Unreadable e => Raise e
  | Sheet cells => Return (map (read_row cells) cells)
  end.

(** [value == s] for a [str] [s]: a value that is not a [str] is not equal
    to it. *)
Definition eq_str (value : cell) (s : string) : bool :=
  match value with
  | Text t => String.eqb t s
  | _ => false
  end.

(** [df[(df['Roll No'] == roll_no) & (df['Date'] == date_str)]] *)
Definition select (df : DataFrame) (roll_no date_str : string) : DataFrame :=
  filter (fun r => eq_str (col_roll_no r) roll_no
                   && eq_str (col_date r) date_str) df.

Definition check_duplicate_attendance (file : workbook)
    (roll_no date_str : string) : outcome bool :=
  match read_excel file with
  | Return df =>
      let duplicate := select df roll_no date_str in
      Return (0 <? List.length duplicate)
  | Raise FileNotFoundError => Return false
  | Raise e => Raise e
  end.

(** [mark_attendance]: what is printed and returned, and the workbook
    afterwards.  [write_failure] tells whether [to_excel] fails: the
    exception it raises and the state it leaves the file in (the file as it
    was, when it cannot be opened for writing). *)
Definition mark_attendance (file : workbook) (student_name roll_no : string)
    (now : datetime) (write_failure : option (exn * workbook)) : Log bool * workbook :=
  let current_date := strftime_date now in
  let current_time := strftime_time now in
  match check_duplicate_attendance file roll_no current_date with
  | Raise e => (throw e, file)
  | Return true =>
      (print (MsgAlreadyMarked student_name roll_no) ;;; ret false, file)
  | Return false =>
      let read :=
        match read_excel file with
        | Return df => Return df
        | Raise FileNotFoundError => Return []
        | Raise e => Raise e
        end in
      match read with
      | Raise e => (throw e, file)
      | Return df =>
          let new_record :=
            [ {| col_roll_no := Text roll_no; col_name := Text student_name;
                 col_date := Text current_date;
                 col_time := Text current_time |} ] in
          let df := df ++ new_record in
          match write_failure with
          | Some (e, remains) => (throw e, remains)
          | None =>
              (print (MsgMarked student_name roll_no current_time) ;;; ret true,
               Sheet df)
          end
      end
  end.

(** [run]: one attendance attempt.  [captured] is what the encoder finds in
    the captured frame, [None] when no frame was captured. *)
Definition run {encoding : Type} (distance : encoding -> encoding -> Q)
    (self : AttendanceSystem encoding) (captured : option (list encoding))
    (now : datetime) (write_failure : option (exn * workbook)) (file : workbook)
  : Log unit * workbook :=
  if List.length (known_faces self) =? 0 then
    (print MsgNoKnownFaces, file)
  else
    match captured with
    | None => (print MsgNoImageCaptured, file)
    | Some face_encodings =>
        match recognize_face distance self face_encodings (6 # 10) with
        | (out, Raise e) => ((out, Raise e), file)
        | (out, Return None) =>
            ((out, Return tt) ;;; print MsgStudentNotRecognized, file)
        | (out, Return (Some (student_name, roll_no))) =>
            let '(marked, file') :=
              mark_attendance file student_name roll_no now write_failure in
            ((out, Return tt) ;;; marked ;;; ret tt, file')
        end
    end.

End Ledger.

(** The frame [mark_attendance] starts from: what [pd.read_excel] returns,
    the empty frame when there is no file. *)
Definition frame_of (convert : list cell -> cell -> cell) (file : workbook)
  : DataFrame :=
  match read_excel convert file with
  | Return df => df
  | Raise _ => []
  end.

(** The exception that reading the file raises in the program, if any: every
    one but [FileNotFoundError], which is caught. *)
Definition read_error (file : workbook) : option exn :=
  match file with
  | Unreadable FileNotFoundError => None
  | Unreadable e => Some e
  | _ => None
  end.

(** The write fails with the exception [e]. *)
Definition write_raises (write_failure : option (exn * workbook)) (e : exn)
  : Prop :=
  exists remains, write_failure = Some (e, remains).

(** The row written for a student. *)
Definition new_row (student_name roll_no : string) (now : datetime) : row :=
  {| col_roll_no := Text roll_no; col_name := Text student_name;
     col_date := Text (strftime_date now);
     col_time := Text (strftime_time now) |}.

(** A text that is read back as it was written, whatever column holds it. *)
Definition kept (convert : list cell -> cell -> cell) (s : string) : Prop :=
  forall column, In (Text s) column -> convert column (Text s) = Text s.

(** The inference makes no text of its own: a value read as a [str] is the
    stored [str]. *)
Definition text_from_text (convert : list cell -> cell -> cell) : Prop :=
  forall column c s, convert column c = Text s -> c = Text s.

(** The gallery's two lists are parallel. *)
Definition parallel {encoding : Type} (self : AttendanceSystem encoding) : Prop :=
  List.length (known_names self) = List.length (known_faces self).

(** [m] is the least of the values [a], first reached at position [b]. *)
Definition first_min (a : list Q) (b : nat) (m : Q) : Prop :=
  nth_error a b = Some m
  /\ (forall d, In d a -> (m <= d)%Q)
  /\ (forall j d, j < b -> nth_error a j = Some d -> (m < d)%Q).

(** The identity a label stands for: what the label parsing returns. *)
Definition identity_of (full_name : string) : string * string :=
  match Str.partition "_"%char full_name with
  | Some (name, roll_no) => (name, roll_no)
  | None => (full_name, "N/A"%string)
  end.

(** The position [np.argmin] returns on a non-empty sequence. *)
Definition best_index (a : list Q) : nat :=
  match a with
  | [] => 0
  | x :: l => argmin_from l 1 0 x
  end.

(** The warning printed before matching. *)
Definition faces_warning {encoding : Type} (face_encodings : list encoding)
  : list message :=
  if 1 <? List.length face_encodings
  then [MsgFacesWarning (List.length face_encodings)]
  else [].

(** Some known face lies within the tolerance: [True in matches]. *)
Definition within {encoding : Type} (distance : encoding -> encoding -> Q)
    (self : AttendanceSystem encoding) (face : encoding) (tolerance : Q) : bool :=
  existsb (fun d => Qle_bool d tolerance)
    (face_distance distance (known_faces self) face).

(** What the loop of [load_known_faces] keeps true of the gallery. *)
Definition loaded {encoding : Type} (self : AttendanceSystem encoding) : Prop :=
  parallel self /\ Forall (fun name => name <> EmptyString) (known_names self).

(** ** Scenarios *)

Module Scenario.

(** One-dimensional encodings with the distance of the line. *)
Definition distance (a b : Q) : Q :=
  if Qle_bool b a then (a - b)%Q else (b - a)%Q.

Definition gallery : AttendanceSystem Q :=
  {| known_faces := [0%Q; 1%Q; 1%Q; 3%Q];
     known_names := ["JohnDoe_101"%string; "JaneSmith"%string;
                     "Jane_Smith_102"%string; "_103"%string] |}.

Definition john : AttendanceSystem Q :=
  {| known_faces := [0%Q]; known_names := ["JohnDoe_101"%string] |}.

Definition morning : datetime :=
  {| year := 2024; month := 3; day := 7; hour := 9; minute := 5; second := 0 |}.

Definition evening : datetime :=
  {| year := 2024; month := 3; day := 7; hour := 17; minute := 30; second := 12 |}.

Definition read (filename : string) : image_outcome Q :=
  if String.eqb filename "broken.jpeg" then ImageError "cannot identify image file"
  else if String.eqb filename "wall.png" then ImageFaces []
  else ImageFaces [1%Q; 2%Q].

Definition read' (filename : string) : image_outcome Q :=
  if String.eqb filename "notes.txt" then ImageError "not an image"
  else read filename.

(** The strings [pd.read_excel] reads as missing by default. *)
Definition na_values : list string :=
  [""; "#N/A"; "#N/A N/A"; "#NA"; "-1.#IND"; "-1.#QNAN"; "-NaN"; "-nan";
   "1.#IND"; "1.#QNAN"; "<NA>"; "N/A"; "NA"; "NULL"; "NaN"; "None"; "n/a";
   "nan"; "null"]%string.

Definition is_na (s : string) : bool := existsb (String.eqb s) na_values.

Fixpoint digits_value (s : string) (acc : Z) : option Z :=
  match s with
  | EmptyString => Some acc
  | String a s' =>
      let n := nat_of_ascii a in
      if (48 <=? n) && (n <=? 57)
      then digits_value s' (10 * acc + Z.of_nat (n - 48))%Z
      else None
  end.

(** The value of a non-empty string of decimal digits. *)
Definition integer (s : string) : option Z :=
  match s with
  | EmptyString => None
  | _ => digits_value s 0
  end.

Definition numeric (c : cell) : bool :=
  match c with
  | Text s => is_na s || match integer s with Some _ => true | None => false end
  | Number _ | Missing => true
  | Boolean _ => false
  end.

(** An inference for the scenarios.  It does what [pd.read_excel] does on
    the columns they use: a default NA string is read as missing; in a column
    of decimal integers, numbers and missing values the integers are read as
    numbers; any other text used here (names, letters with digits, dates,
    times) is read as it is. *)
Definition convert (column : list cell) (c : cell) : cell :=
  match c with
  | Text s =>
      if is_na s then Missing
      else if forallb numeric column then
             match integer s with
             | Some z => Number (inject_Z z)
             | None => Text s
             end
           else Text s
  | _ => c
  end.

End Scenario.

(** ** The camera: [capture_image] *)

(** What [capture_image] prints, and the release of the camera and of the
    window at its end.  The overlay drawn on the shown frame is display only
    and is left out. *)
Inductive camera_event : Type :=
| MsgCouldNotOpenWebcam
| MsgCameraOpened
| MsgPositionYourFace
| MsgPressSpaceToCapture
| MsgPressEscToCancel
| MsgFailedToGrabFrame
| MsgImageCaptured
| MsgCancelledByUser
| CameraReleased.

(** One turn of the loop: [cam.read()] fails, or gives a frame, after which
    [cv2.waitKey(1)] gives a key code (-1 when no key is down). *)
Inductive camera_turn (frame : Type) : Type :=
| GrabFailed
| Grabbed (image : frame) (key : Z).

Arguments GrabFailed {frame}.
Arguments Grabbed {frame} image key.

(** The [while True] loop over the turns the camera and the keyboard take;
    [None] when the turns end with the loop still running. *)
Fixpoint capture_loop {frame : Type} (turns : list (camera_turn frame))
  : option (list camera_event * option frame) :=
  match turns with
  | [] => None
  | GrabFailed :: _ => Some ([MsgFailedToGrabFrame], None)
  | Grabbed image key :: turns' =>
      let key := Z.land key 255 in
      if (key =? 32)%Z then Some ([MsgImageCaptured], Some image)
      else if (key =? 27)%Z then Some ([MsgCancelledByUser], None)
      else capture_loop turns'
  end.

(** [capture_image]; [camera] is [None] when the webcam cannot be opened. *)
Definition capture_image {frame : Type}
    (camera : option (list (camera_turn frame)))
  : option (list camera_event * option frame) :=
  match camera with
  | None => Some ([MsgCouldNotOpenWebcam], None)
  | Some turns =>
      match capture_loop turns with
      | Some (out, captured_frame) =>
          Some ([MsgCameraOpened; MsgPositionYourFace; MsgPressSpaceToCapture;
                 MsgPressEscToCancel] ++ out ++ [CameraReleased],
                captured_frame)
      | None => None
      end
  end.

(** ** The session: [run] with its camera, and [main] *)

Inductive event : Type :=
| Console (m : message)
| Camera (e : camera_event)
| ErrorReport (e : exn)
| SessionEnded.

(** [run] from the opening of the camera on: [capture_image], then the
    recognition and the marking of [run] on what the encoder finds in the
    captured frame. *)
Definition run_with_camera {frame encoding : Type}
    (distance : encoding -> encoding -> Q)
    (face_encodings : frame -> list encoding)
    (convert : list cell -> cell -> cell)
    (self : AttendanceSystem encoding)
    (camera : option (list (camera_turn frame)))
    (now : datetime) (write_failure : option (exn * workbook)) (file : workbook)
  : option ((list event * outcome unit) * workbook) :=
  if List.length (known_faces self) =? 0 then
    Some (([Console MsgNoKnownFaces], Return tt), file)
  else
    match capture_image camera with
    | None => None
    | Some (shown, image) =>
        let '((out, r), file') :=
          run convert distance self (option_map face_encodings image) now
            write_failure file in
        Some ((map Camera shown ++ map Console out, r), file')
    end.

(** [main]: the gallery is loaded from [listing], one attempt is run, every
    exception is reported, and the session is closed. *)
Definition main {frame encoding : Type}
    (distance : encoding -> encoding -> Q)
    (face_encodings : frame -> list encoding)
    (convert : list cell -> cell -> cell)
    (listing : option (list string)) (read : string -> image_outcome encoding)
    (camera : option (list (camera_turn frame)))
    (now : datetime) (write_failure : option (exn * workbook)) (file : workbook)
  : option (list event * workbook) :=
  match load_known_faces listing read with
  | (out, Raise e) =>
      Some (map Console out ++ [ErrorReport e; SessionEnded], file)
  | (out, Return system) =>
      match run_with_camera distance face_encodings convert system camera now
              write_failure file with
      | None => None
      | Some ((out', Return _), file') =>
          Some (map Console out ++ out' ++ [SessionEnded], file')
      | Some ((out', Raise e), file') =>
          Some (map Console out ++ out' ++ [ErrorReport e; SessionEnded], file')
      end
  end.

(** ** Notions used in the statements *)

(** The file name passes the extension test of [load_known_faces]. *)
Definition is_image (filename : string) : bool :=
  Str.endswith_any (Str.lower filename) valid_extensions.

(** The gallery entry a directory entry gives: its first face and its name
    without extension, when it is an image in which a face is found. *)
Definition entry {encoding : Type} (read : string -> image_outcome encoding)
    (filename : string) : list (encoding * string) :=
  if is_image filename then
    match read filename with
    | ImageFaces (first :: _) => [(first, fst (splitext filename))]
    | _ => []
    end
  else [].

(** What the loop of [load_known_faces] prints for a directory entry. *)
Definition report {encoding : Type} (read : string -> image_outcome encoding)
    (filename : string) : list message :=
  if is_image filename then
    match read filename with
    | ImageFaces (_ :: _) => [MsgLoaded (fst (splitext filename))]
    | ImageFaces [] => [MsgNoFaceDetectedIn filename]
    | ImageError err => [MsgErrorLoading filename err]
    end
  else [].

(** The gallery [load_known_faces] builds from a directory. *)
Definition gallery_of {encoding : Type} (read : string -> image_outcome encoding)
    (filenames : list string) : AttendanceSystem encoding :=
  {| known_faces := map fst (flat_map (entry read) filenames);
     known_names := map snd (flat_map (entry read) filenames) |}.

(** A message reporting an image that was not loaded. *)
Definition is_skip (m : message) : bool :=
  match m with
  | MsgNoFaceDetectedIn _ | MsgErrorLoading _ _ => true
  | _ => false
  end.

(** The ranges of [datetime]'s date fields that matter to the formatting. *)
Definition valid_date (now : datetime) : Prop :=
  year now < 10 * 1000 /\ month now < 100 /\ day now < 100.

(** A turn that keeps the loop of [capture_image] running: a frame with
    neither SPACE nor ESC pressed. *)
Definition idle {frame : Type} (t : camera_turn frame) : Prop :=
  match t with
  | GrabFailed => False
  | Grabbed _ key => (key mod 256 <> 32)%Z /\ (key mod 256 <> 27)%Z
  end.

(** What [run] prints or shows: neither an error report nor the end of the
    session. *)
Definition plain (ev : event) : Prop :=
  match ev with
  | Console _ | Camera _ => True
  | ErrorReport _ | SessionEnded => False
  end.

Module Session.

(** A frame is described by the encodings of the faces in it. *)
Definition face_encodings (image : list Q) : list Q := image.

(** Two idle frames (no key down; a key other than SPACE and ESC), then
    SPACE with the Num Lock flag set on a frame with two faces, the known
    one first. *)
Definition camera : option (list (camera_turn (list Q))) :=
  Some [Grabbed [3%Q] (-1)%Z; Grabbed [] 113%Z;
        Grabbed [1%Q; 3%Q] 1048608%Z; Grabbed [0%Q] 27%Z].

Definition directory : option (list string) :=
  Some ["JohnDoe_101.JPG"%string; "notes.txt"%string; "wall.png"%string;
        "broken.jpeg"%string].

Definition next_morning : datetime :=
  {| year := 2024; month := 3; day := 8; hour := 9; minute := 5; second := 0 |}.

(** What the session of the scenario prints up to the marking. *)
Definition printed_before : list event :=
  [Console MsgLoadingKnownFaces; Console MsgExpectedFormat;
   Console (MsgLoaded "JohnDoe_101");
   Console (MsgNoFaceDetectedIn "wall.png");
   Console (MsgErrorLoading "broken.jpeg" "cannot identify image file");
   Console (MsgTotalLoaded 1);
   Camera MsgCameraOpened; Camera MsgPositionYourFace;
   Camera MsgPressSpaceToCapture; Camera MsgPressEscToCancel;
   Camera MsgImageCaptured; Camera CameraReleased;
   Console (MsgFacesWarning 2);
   Console (MsgRecognized "JohnDoe" "101" (1 - (1 - 1))%Q)].

(** All it prints when the workbook can be written, and when it cannot. *)
Definition printed : list event :=
  printed_before
  ++ [Console (MsgMarked "JohnDoe" "101" "09:05:00"); SessionEnded].

Definition printed_locked : list event :=
  printed_before
  ++ [ErrorReport (OSError "Permission denied"); SessionEnded].

End Session.

(** * Properties *)

(** ** Strings *)

Lemma contains_false_partition (c : ascii) (s : string) :
  Str.contains c s = false -> Str.partition c s = None.
Proof.
  induction s as [|a s IH]; simpl; [reflexivity|].
  destruct (Ascii.eqb a c); [discriminate|].
  intros H. now rewrite (IH H).
Qed.

Lemma partition_append (c : ascii) (before after : string) :
  Str.contains c before = false ->
  Str.partition c (before ++ String c after) = Some (before, after).
Proof.
  induction before as [|a s IH]; simpl.
  - now rewrite Ascii.eqb_refl.
  - destruct (Ascii.eqb a c); [discriminate|].
    intros H. now rewrite (IH H).
Qed.

Lemma partition_some (c : ascii) (s before after : string) :
  Str.partition c s = Some (before, after) ->
  s = (before ++ String c after)%string /\ Str.contains c before = false.
Proof.
  revert before. induction s as [|a s IH]; simpl; intros before; [discriminate|].
  destruct (Ascii.eqb a c) eqn:E.
  - apply Ascii.eqb_eq in E. subst a. intros [= <- <-]. now split.
  - destruct (Str.partition c s) as [[b' a']|]; [|discriminate].
    intros [= <- <-]. destruct (IH b' eq_refl) as [-> Hc].
    simpl. now rewrite E.
Qed.

Lemma contains_true_partition (c : ascii) (s : string) :
  Str.contains c s = true ->
  exists before after, Str.partition c s = Some (before, after).
Proof.
  induction s as [|a s IH]; simpl; [discriminate|].
  destruct (Ascii.eqb a c).
  - intros _. now exists EmptyString, s.
  - intros H. destruct (IH H) as (b & a' & ->). now exists (String a b), a'.
Qed.

Lemma contains_append (c : ascii) (before after : string) :
  Str.contains c (before ++ String c after) = true.
Proof.
  induction before as [|a s IH]; simpl.
  - now rewrite Ascii.eqb_refl.
  - now destruct (Ascii.eqb a c).
Qed.

Lemma parse_full_name_identity (full_name : string) :
  parse_full_name full_name = ret (identity_of full_name).
Proof.
  unfold parse_full_name, identity_of, Str.split1.
  destruct (Str.contains "_" full_name) eqn:E.
  - destruct (contains_true_partition _ _ E) as (b & a & ->). reflexivity.
  - now rewrite (contains_false_partition _ _ E).
Qed.

(** ** Labels *)

(** C3 (as amended): a label without an underscore gives the whole label as
    name and the roll number "N/A"; a label with an underscore gives the text
    before the first underscore as name and everything after it as roll
    number. *)
Theorem parse_full_name_split (full_name : string) :
  (Str.contains "_"%char full_name = false ->
   parse_full_name full_name = ret (full_name, "N/A"%string))
  /\
  (forall before after : string,
     full_name = (before ++ String "_"%char after)%string ->
     Str.contains "_"%char before = false ->
     parse_full_name full_name = ret (before, after)).
Proof.
  rewrite parse_full_name_identity. unfold identity_of. split.
  - intros H. now rewrite (contains_false_partition _ _ H).
  - intros before after -> H. now rewrite (partition_append _ _ _ H).
Qed.

Lemma parse_full_name_split_witness :
  parse_full_name "JaneSmith" = ret ("JaneSmith"%string, "N/A"%string)
  /\ parse_full_name "Jane_Smith_102" = ret ("Jane"%string, "Smith_102"%string).
Proof.
  split.
  - apply (proj1 (parse_full_name_split "JaneSmith")). reflexivity.
  - apply (proj2 (parse_full_name_split "Jane_Smith_102") "Jane" "Smith_102")%string;
      reflexivity.
Defined.

(** C3 as stated fails: the roll number of "JaneSmith" is "N/A", which is not
    "unknown". *)
Lemma parse_full_name_sentinel_not_unknown :
  snd (parse_full_name "JaneSmith") = Return ("JaneSmith"%string, "N/A"%string)
  /\ snd (parse_full_name "JaneSmith")
     <> Return ("JaneSmith"%string, "unknown"%string).
Proof.
  split; [reflexivity | discriminate].
Qed.

(** C9 (as amended): parsing a label always returns a name and a roll number
    (a string, "N/A" at worst); the name is empty exactly when the label is
    empty or begins with an underscore. *)
Theorem parse_full_name_fields (full_name : string) :
  exists name roll_no : string,
    parse_full_name full_name = ret (name, roll_no)
    /\ (name = EmptyString <->
        full_name = EmptyString
        \/ exists rest, full_name = String "_"%char rest).
Proof.
  rewrite parse_full_name_identity. unfold identity_of.
  destruct (Str.partition "_" full_name) as [[name roll_no]|] eqn:E.
  - exists name, roll_no. split; [reflexivity|].
    apply partition_some in E. destruct E as [-> Hc]. split.
    + intros ->. right. now exists roll_no.
    + intros [H | [rest H]].
      * destruct name; [reflexivity | discriminate].
      * destruct name as [|a name]; [reflexivity|].
        simpl in H, Hc. injection H as -> _.
        now rewrite Ascii.eqb_refl in Hc.
  - exists full_name, "N/A"%string. split; [reflexivity|]. split.
    + intros ->. now left.
    + intros [-> | [rest ->]]; [reflexivity|].
      simpl in E. discriminate.
Qed.

(** C9 as stated fails: the label "_103" gives an empty name. *)
Lemma parse_full_name_empty_name :
  snd (parse_full_name "_103") = Return (EmptyString, "103"%string)
  /\ snd (recognize_face Scenario.distance Scenario.gallery [3%Q] (6 # 10))
     = Return (Some (EmptyString, "103"%string)).
Proof.
  split; reflexivity.
Qed.

(** ** The matcher *)

Lemma Qlt_bool_true (x y : Q) : Qlt_bool x y = true <-> (x < y)%Q.
Proof.
  unfold Qlt_bool. rewrite negb_true_iff. split.
  - intros H. apply Qnot_le_lt. intros Hle.
    apply Qle_bool_iff in Hle. congruence.
  - intros H. destruct (Qle_bool y x) eqn:E; [|reflexivity].
    apply Qle_bool_iff in E. exfalso. apply (Qlt_not_le _ _ H E).
Qed.

Lemma Qlt_bool_false (x y : Q) : Qlt_bool x y = false <-> (y <= x)%Q.
Proof.
  unfold Qlt_bool. rewrite negb_false_iff. apply Qle_bool_iff.
Qed.

Lemma first_min_snoc_lt (pre : list Q) (b : nat) (m x : Q) :
  first_min pre b m -> (x < m)%Q -> first_min (pre ++ [x]) (List.length pre) x.
Proof.
  intros (Hb & Hle & Hlt) Hx. repeat split.
  - rewrite nth_error_app2, Nat.sub_diag by lia. reflexivity.
  - intros d [Hd | [<- | []]]%in_app_or.
    + apply Qlt_le_weak. apply Qlt_le_trans with m; auto.
    + apply Qle_refl.
  - intros j d Hj Hd. rewrite nth_error_app1 in Hd by exact Hj.
    apply nth_error_In in Hd. apply Qlt_le_trans with m; auto.
Qed.

Lemma first_min_snoc_ge (pre : list Q) (b : nat) (m x : Q) :
  first_min pre b m -> (m <= x)%Q -> first_min (pre ++ [x]) b m.
Proof.
  intros (Hb & Hle & Hlt) Hx.
  assert (Hlen : b < List.length pre) by (apply nth_error_Some; congruence).
  repeat split.
  - rewrite nth_error_app1 by exact Hlen. exact Hb.
  - intros d [Hd | [<- | []]]%in_app_or; auto.
  - intros j d Hj Hd. rewrite nth_error_app1 in Hd by lia. eauto.
Qed.

Lemma argmin_from_first_min (l pre : list Q) (b : nat) (m : Q) :
  first_min pre b m ->
  exists m', first_min (pre ++ l) (argmin_from l (List.length pre) b m) m'.
Proof.
  revert pre b m. induction l as [|x l IH]; intros pre b m H; simpl.
  - exists m. now rewrite app_nil_r.
  - replace (pre ++ x :: l) with ((pre ++ [x]) ++ l)
      by (rewrite <- app_assoc; reflexivity).
    replace (S (List.length pre)) with (List.length (pre ++ [x]))
      by (rewrite length_app; simpl; lia).
    destruct (Qlt_bool x m) eqn:E.
    + apply Qlt_bool_true in E.
      apply IH. eapply first_min_snoc_lt; eauto.
    + apply Qlt_bool_false in E. apply IH. now apply first_min_snoc_ge.
Qed.

Lemma best_index_first_min (a : list Q) :
  a <> [] -> exists m, first_min a (best_index a) m.
Proof.
  destruct a as [|x l]; [congruence|]. intros _.
  apply (argmin_from_first_min l [x] 0 x). repeat split.
  - intros d [<- | []]. apply Qle_refl.
  - intros j d Hj. lia.
Qed.

Lemma first_min_unique (a : list Q) (b b' : nat) (m m' : Q) :
  first_min a b m -> first_min a b' m' -> b = b' /\ m = m'.
Proof.
  intros (Hb & Hle & Hlt) (Hb' & Hle' & Hlt').
  assert (b = b') as <-.
  { destruct (Nat.lt_trichotomy b b') as [H | [H | H]]; [|exact H|].
    - exfalso. specialize (Hlt' _ _ H Hb).
      apply nth_error_In in Hb'. apply Hle in Hb'.
      apply (Qlt_not_le _ _ Hlt' Hb').
    - exfalso. specialize (Hlt _ _ H Hb').
      apply nth_error_In in Hb. apply Hle' in Hb.
      apply (Qlt_not_le _ _ Hlt Hb). }
  split; congruence.
Qed.

Lemma existsb_compare (ds : list Q) (tol : Q) :
  existsb (fun m : bool => m) (map (fun d => Qle_bool d tol) ds)
  = existsb (fun d => Qle_bool d tol) ds.
Proof.
  induction ds as [|d ds IH]; simpl; [reflexivity | now rewrite IH].
Qed.

Lemma bind_ret {A B} (a : A) (k : A -> Log B) : bind (ret a) k = k a.
Proof.
  unfold bind, ret. destruct (k a). reflexivity.
Qed.

Lemma bind_throw {A B} (e : exn) (k : A -> Log B) : bind (throw e) k = throw e.
Proof. reflexivity. Qed.

Lemma bind_print {B} (m : message) (k : unit -> Log B) :
  bind (print m) k = (m :: fst (k tt), snd (k tt)).
Proof.
  unfold bind, print. destruct (k tt). reflexivity.
Qed.

Section Matcher.

Context {encoding : Type}.
Variable distance : encoding -> encoding -> Q.

Local Abbreviation recognize := (recognize_face distance).

Lemma within_iff self face tolerance :
  within distance self face tolerance = true <->
  exists d, In d (face_distance distance (known_faces self) face)
            /\ (d <= tolerance)%Q.
Proof.
  unfold within. rewrite existsb_exists.
  split; intros (d & Hd & H); exists d; split; auto; now apply Qle_bool_iff.
Qed.

(** [recognize_face] on a frame with at least one face, step by step. *)
Lemma recognize_face_eq self q rest tolerance :
  let ds := face_distance distance (known_faces self) q in
  recognize self (q :: rest) tolerance =
  if within distance self q tolerance then
    match nth_error ds (best_index ds),
          nth_error (known_names self) (best_index ds) with
    | Some d, Some full_name =>
        (faces_warning (q :: rest)
           ++ [MsgRecognized (fst (identity_of full_name))
                 (snd (identity_of full_name)) (1 - d)%Q],
         Return (Some (identity_of full_name)))
    | _, _ => (faces_warning (q :: rest), Raise IndexError)
    end
  else (faces_warning (q :: rest) ++ [MsgNotRecognized], Return None).
Proof.
  intros ds. subst ds. unfold recognize_face, compare_faces, within.
  rewrite existsb_compare.
  set (ds := face_distance distance (known_faces self) q).
  set (warn := faces_warning (q :: rest)).
  match goal with
  | |- (_ ;;; ?k) = _ =>
      assert (Hk : k =
        if existsb (fun d => Qle_bool d tolerance) ds then
          match nth_error ds (best_index ds),
                nth_error (known_names self) (best_index ds) with
          | Some d, Some full_name =>
              ([MsgRecognized (fst (identity_of full_name))
                  (snd (identity_of full_name)) (1 - d)%Q],
               Return (Some (identity_of full_name)))
          | _, _ => ([], Raise IndexError)
          end
        else ([MsgNotRecognized], Return None))
  end.
  { destruct (existsb (fun d => Qle_bool d tolerance) ds) eqn:W.
    - apply existsb_exists in W. destruct W as (d0 & Hd0 & Htol).
      apply Qle_bool_iff in Htol.
      assert (Hne : ds <> []) by (intros E; rewrite E in Hd0; destruct Hd0).
      destruct (best_index_first_min ds Hne) as (m & Hb & Hle & _).
      assert (Harg : argmin ds = ret (best_index ds))
        by (destruct ds; [congruence | reflexivity]).
      assert (Hmt : Qle_bool m tolerance = true).
      { apply Qle_bool_iff. apply Qle_trans with d0; auto. }
      rewrite Harg, bind_ret.
      unfold index. rewrite nth_error_map, Hb. simpl option_map.
      rewrite Hmt, !bind_ret.
      destruct (nth_error (known_names self) (best_index ds)) as [full_name|].
      + rewrite bind_ret, parse_full_name_identity, bind_ret.
        reflexivity.
      + reflexivity.
    - rewrite bind_ret. reflexivity. }
  rewrite Hk. clear Hk. subst warn. unfold faces_warning.
  destruct (1 <? List.length (q :: rest));
    [rewrite bind_print | rewrite bind_ret];
    destruct (existsb (fun d => Qle_bool d tolerance) ds); try reflexivity;
    destruct (nth_error ds (best_index ds));
    try destruct (nth_error (known_names self) (best_index ds));
    reflexivity.
Qed.

Lemma face_distance_length known q :
  List.length (face_distance distance known q) = List.length known.
Proof. apply length_map. Qed.

(** With parallel lists the matcher never raises. *)
Lemma recognize_face_result self q rest tolerance :
  parallel self ->
  let ds := face_distance distance (known_faces self) q in
  (within distance self q tolerance = true /\
   exists m full_name,
     first_min ds (best_index ds) m
     /\ (m <= tolerance)%Q
     /\ nth_error (known_names self) (best_index ds) = Some full_name
     /\ recognize self (q :: rest) tolerance =
        (faces_warning (q :: rest)
           ++ [MsgRecognized (fst (identity_of full_name))
                 (snd (identity_of full_name)) (1 - m)%Q],
         Return (Some (identity_of full_name))))
  \/
  (within distance self q tolerance = false /\
   recognize self (q :: rest) tolerance =
   (faces_warning (q :: rest) ++ [MsgNotRecognized], Return None)).
Proof.
  intros Hpar ds. rewrite recognize_face_eq. fold ds.
  destruct (within distance self q tolerance) eqn:W; [left | right; now split].
  split; [reflexivity|].
  apply within_iff in W. destruct W as (d0 & Hd0 & Htol). fold ds in Hd0.
  assert (Hne : ds <> []) by (intros E; rewrite E in Hd0; destruct Hd0).
  destruct (best_index_first_min ds Hne) as (m & Hm).
  pose proof Hm as (Hb & Hle & _).
  assert (Hlen : best_index ds < List.length (known_names self)).
  { unfold parallel in Hpar.
    rewrite Hpar, <- (face_distance_length (known_faces self) q).
    apply nth_error_Some. fold ds. congruence. }
  destruct (nth_error (known_names self) (best_index ds)) as [full_name|] eqn:En.
  - exists m, full_name. rewrite Hb.
    split; [exact Hm|]. split; [apply Qle_trans with d0; auto|].
    split; reflexivity.
  - apply nth_error_None in En. lia.
Qed.

End Matcher.

(** C1: on a frame with a face, [recognize_face] returns a match exactly when
    the gallery is not empty and the least distance from the captured encoding
    to a known face is at most the tolerance (the bound is inclusive);
    otherwise it returns [None], and it does so for an empty gallery under
    any tolerance. *)
Theorem recognize_face_threshold {encoding : Type}
    (distance : encoding -> encoding -> Q) (self : AttendanceSystem encoding)
    (q : encoding) (rest : list encoding) (tolerance : Q) :
  parallel self ->
  ((exists id, snd (recognize_face distance self (q :: rest) tolerance)
               = Return (Some id))
   <->
   (known_faces self <> []
    /\ exists m,
         In m (face_distance distance (known_faces self) q)
         /\ (forall d, In d (face_distance distance (known_faces self) q) -> (m <= d)%Q)
         /\ (m <= tolerance)%Q))
  /\ (snd (recognize_face distance self (q :: rest) tolerance) = Return None
      \/ exists id, snd (recognize_face distance self (q :: rest) tolerance)
                    = Return (Some id))
  /\ (known_faces self = [] ->
      snd (recognize_face distance self (q :: rest) tolerance) = Return None).
Proof.
  intros Hpar.
  destruct (recognize_face_result distance self q rest tolerance Hpar)
    as [(W & m & full_name & Hm & Hmt & Hn & ->) | (W & ->)]; simpl.
  - split; [|split].
    + split; [intros _ | intros _; now eexists].
      destruct Hm as (Hb & Hle & _). apply nth_error_In in Hb. split.
      * intros E. rewrite E in Hb. destruct Hb.
      * exists m. auto.
    + right. now eexists.
    + intros E. unfold within in W. rewrite E in W. discriminate.
  - split; [|split]; auto.
    split; [intros [id H]; discriminate|].
    intros (_ & m & Hin & _ & Hmt). exfalso.
    assert (within distance self q tolerance = true); [|congruence].
    apply within_iff. now exists m.
Qed.

Lemma recognize_face_threshold_witness :
  parallel Scenario.john
  /\ ((exists id, snd (recognize_face Scenario.distance Scenario.john
                         [(6 # 10)%Q] (6 # 10)) = Return (Some id))
      <->
      (known_faces Scenario.john <> []
       /\ exists m,
            In m (face_distance Scenario.distance (known_faces Scenario.john) (6 # 10))
            /\ (forall d,
                  In d (face_distance Scenario.distance (known_faces Scenario.john) (6 # 10))
                  -> (m <= d)%Q)
            /\ (m <= 6 # 10)%Q)).
Proof.
  split; [reflexivity|].
  apply (recognize_face_threshold Scenario.distance Scenario.john
           (6 # 10)%Q [] (6 # 10)%Q).
  reflexivity.
Defined.

(** The scenarios of the boundary: a distance of exactly 0.6 is accepted under
    tolerance 0.6, a distance of 0.61 is not. *)
Example recognize_face_at_boundary :
  snd (recognize_face Scenario.distance Scenario.john [(6 # 10)%Q] (6 # 10))
  = Return (Some ("JohnDoe"%string, "101"%string)).
Proof. reflexivity. Qed.

Example recognize_face_above_boundary :
  recognize_face Scenario.distance Scenario.john [(61 # 100)%Q] (6 # 10)
  = ([MsgNotRecognized], Return None).
Proof. reflexivity. Qed.

(** C5: a match found under a tolerance is found, with the same identity,
    under every larger tolerance. *)
Theorem recognize_face_monotone {encoding : Type}
    (distance : encoding -> encoding -> Q) (self : AttendanceSystem encoding)
    (q : encoding) (rest : list encoding) (tol1 tol2 : Q)
    (id : string * string) :
  (tol1 < tol2)%Q ->
  snd (recognize_face distance self (q :: rest) tol1) = Return (Some id) ->
  snd (recognize_face distance self (q :: rest) tol2) = Return (Some id).
Proof.
  intros Hlt. rewrite !recognize_face_eq.
  destruct (within distance self q tol1) eqn:W1; [|discriminate].
  assert (W2 : within distance self q tol2 = true).
  { apply within_iff in W1. destruct W1 as (d & Hd & Hle).
    apply within_iff. exists d. split; [exact Hd|].
    apply Qlt_le_weak. apply Qle_lt_trans with tol1; auto. }
  rewrite W2.
  destruct (nth_error _ _); [|discriminate].
  destruct (nth_error _ _); [|discriminate].
  auto.
Qed.

Lemma recognize_face_monotone_witness :
  snd (recognize_face Scenario.distance Scenario.gallery [(1 # 2)%Q] (9 # 10))
  = Return (Some ("JohnDoe"%string, "101"%string)).
Proof.
  apply (recognize_face_monotone Scenario.distance Scenario.gallery
           (1 # 2)%Q [] (6 # 10)%Q (9 # 10)%Q).
  - reflexivity.
  - reflexivity.
Defined.

(** C7: the identity returned is the one of the first gallery entry, in
    insertion order, among those at the least distance: every entry before it
    is strictly farther, so every entry tied with it comes later. *)
Theorem recognize_face_first_minimum {encoding : Type}
    (distance : encoding -> encoding -> Q) (self : AttendanceSystem encoding)
    (q : encoding) (rest : list encoding) (tolerance : Q)
    (id : string * string) :
  snd (recognize_face distance self (q :: rest) tolerance) = Return (Some id) ->
  exists (b : nat) (m : Q) (full_name : string),
    nth_error (face_distance distance (known_faces self) q) b = Some m
    /\ (forall d, In d (face_distance distance (known_faces self) q) -> (m <= d)%Q)
    /\ (forall j d,
          nth_error (face_distance distance (known_faces self) q) j = Some d ->
          (d == m)%Q -> b <= j)
    /\ nth_error (known_names self) b = Some full_name
    /\ parse_full_name full_name = ret id.
Proof.
  rewrite recognize_face_eq.
  destruct (within distance self q tolerance) eqn:W; [|discriminate].
  apply within_iff in W. destruct W as (d0 & Hd0 & _).
  set (ds := face_distance distance (known_faces self) q) in *.
  assert (Hne : ds <> []) by (intros E; rewrite E in Hd0; destruct Hd0).
  destruct (best_index_first_min ds Hne) as (m & Hb & Hle & Hlt).
  rewrite Hb.
  destruct (nth_error (known_names self) (best_index ds)) as [full_name|] eqn:En;
    [|discriminate].
  simpl. intros [= <-].
  exists (best_index ds), m, full_name.
  split; [exact Hb|]. split; [exact Hle|]. split.
  - intros j d Hj Heq. destruct (Nat.le_gt_cases (best_index ds) j) as [H|H]; [exact H|].
    exfalso. specialize (Hlt _ _ H Hj). rewrite Heq in Hlt.
    apply (Qlt_irrefl _ Hlt).
  - split; [exact En | apply parse_full_name_identity].
Qed.

Lemma recognize_face_first_minimum_witness :
  exists (b : nat) (m : Q) (full_name : string),
    nth_error (face_distance Scenario.distance (known_faces Scenario.gallery) 1%Q) b
    = Some m
    /\ (forall d,
          In d (face_distance Scenario.distance (known_faces Scenario.gallery) 1%Q)
          -> (m <= d)%Q)
    /\ (forall j d,
          nth_error (face_distance Scenario.distance (known_faces Scenario.gallery) 1%Q) j
          = Some d ->
          (d == m)%Q -> b <= j)
    /\ nth_error (known_names Scenario.gallery) b = Some full_name
    /\ parse_full_name full_name = ret ("JaneSmith"%string, "N/A"%string).
Proof.
  apply (recognize_face_first_minimum Scenario.distance Scenario.gallery
           1%Q [] (6 # 10)%Q).
  reflexivity.
Defined.

(** Two entries of the gallery are at distance 0 from the query; the first of
    them, "JaneSmith", is returned, not "Jane_Smith_102". *)
Example recognize_face_tie :
  face_distance Scenario.distance (known_faces Scenario.gallery) 1%Q
  = [1%Q; (1 - 1)%Q; (1 - 1)%Q; (3 - 1)%Q]
  /\ snd (recognize_face Scenario.distance Scenario.gallery [1%Q] (6 # 10))
     = Return (Some ("JaneSmith"%string, "N/A"%string)).
Proof. split; reflexivity. Qed.

(** C4 (as amended): when the encoder finds more than one face,
    [recognize_face] prints a warning with their number and goes on with the
    first encoding: the gallery is compared with it and the outcome is the one
    for that encoding alone. *)
Theorem recognize_face_uses_first_face {encoding : Type}
    (distance : encoding -> encoding -> Q) (self : AttendanceSystem encoding)
    (q1 q2 : encoding) (rest : list encoding) (tolerance : Q) :
  recognize_face distance self (q1 :: q2 :: rest) tolerance
  = (MsgFacesWarning (2 + List.length rest)
       :: fst (recognize_face distance self [q1] tolerance),
     snd (recognize_face distance self [q1] tolerance)).
Proof.
  rewrite !recognize_face_eq. unfold faces_warning. simpl.
  destruct (within distance self q1 tolerance); [|reflexivity].
  destruct (nth_error _ _); [|reflexivity].
  destruct (nth_error _ _); reflexivity.
Qed.

(** C4 as stated fails: with two faces in the frame the gallery is still
    searched, and the attempt ends with a match. *)
Lemma recognize_face_two_faces_match :
  1 < List.length [(1 # 2)%Q; 1%Q]
  /\ In (MsgFacesWarning 2)
       (fst (recognize_face Scenario.distance Scenario.gallery
               [(1 # 2)%Q; 1%Q] (6 # 10)))
  /\ snd (recognize_face Scenario.distance Scenario.gallery
            [(1 # 2)%Q; 1%Q] (6 # 10))
     = Return (Some ("JohnDoe"%string, "101"%string))
  /\ snd (recognize_face Scenario.distance Scenario.gallery
            [(1 # 2)%Q; 3%Q] (6 # 10))
     <> snd (recognize_face Scenario.distance Scenario.gallery
               [(1 # 2)%Q; 3%Q] (1 # 10)).
Proof.
  split; [simpl; lia|]. split; [left; reflexivity|].
  split; [reflexivity | discriminate].
Qed.

(** ** The ledger *)

Lemma eq_str_true (value : cell) (s : string) :
  eq_str value s = true <-> value = Text s.
Proof.
  destruct value as [t| | |]; simpl; try (split; discriminate).
  rewrite String.eqb_eq. split; congruence.
Qed.

Lemma eq_str_false (value : cell) (s : string) :
  value <> Text s -> eq_str value s = false.
Proof.
  intros H. destruct (eq_str value s) eqn:E; [|reflexivity].
  apply eq_str_true in E. contradiction.
Qed.

Lemma select_app (df1 df2 : DataFrame) (roll_no date_str : string) :
  select (df1 ++ df2) roll_no date_str
  = select df1 roll_no date_str ++ select df2 roll_no date_str.
Proof. apply filter_app. Qed.

Lemma select_In (df : DataFrame) (roll_no date_str : string) (r : row) :
  In r (select df roll_no date_str) <->
  In r df /\ col_roll_no r = Text roll_no /\ col_date r = Text date_str.
Proof.
  unfold select. rewrite filter_In, andb_true_iff, !eq_str_true. tauto.
Qed.

Lemma select_nil_iff (df : DataFrame) (roll_no date_str : string) :
  (0 <? List.length (select df roll_no date_str)) = false <->
  forall r, In r df ->
            ~ (col_roll_no r = Text roll_no /\ col_date r = Text date_str).
Proof.
  rewrite Nat.ltb_ge. split.
  - intros H r Hr Hm.
    assert (Hin : In r (select df roll_no date_str)) by (apply select_In; tauto).
    destruct (select df roll_no date_str); [destruct Hin | simpl in H; lia].
  - intros H. destruct (select df roll_no date_str) as [|r l] eqn:E; [simpl; lia|].
    assert (Hin : In r (select df roll_no date_str)) by (rewrite E; now left).
    apply select_In in Hin. exfalso. apply (H r); tauto.
Qed.

Section LedgerFacts.

Variable convert : list cell -> cell -> cell.

(** The check, by what reading the file does. *)
Lemma check_duplicate_attendance_eq (file : workbook) (roll_no date_str : string) :
  check_duplicate_attendance convert file roll_no date_str
  = match read_error file with
    | Some e => Raise e
    | None =>
        Return (0 <? List.length (select (frame_of convert file) roll_no date_str))
    end.
Proof. destruct file as [|[]|cells]; reflexivity. Qed.

(** The ways [mark_attendance] ends. *)
Lemma mark_attendance_eq (file : workbook) (student_name roll_no : string)
    (now : datetime) (write_failure : option (exn * workbook)) :
  mark_attendance convert file student_name roll_no now write_failure
  = match read_error file with
    | Some e => (throw e, file)
    | None =>
        if 0 <? List.length
                  (select (frame_of convert file) roll_no (strftime_date now))
        then (([MsgAlreadyMarked student_name roll_no], Return false), file)
        else match write_failure with
             | Some (e, remains) => (throw e, remains)
             | None =>
                 (([MsgMarked student_name roll_no (strftime_time now)],
                   Return true),
                  Sheet (frame_of convert file
                         ++ [new_row student_name roll_no now]))
             end
    end.
Proof.
  unfold mark_attendance. rewrite check_duplicate_attendance_eq.
  destruct file as [|[]|cells]; cbn [read_error]; try reflexivity;
    destruct (0 <? _); try reflexivity; destruct write_failure as [[]|];
    reflexivity.
Qed.

Lemma frame_of_sheet (cells : list row) :
  frame_of convert (Sheet cells) = map (read_row convert cells) cells.
Proof. reflexivity. Qed.

End LedgerFacts.

(** C2 (the code departs from it): two calls of [mark_attendance] for the
    same student from no workbook, when the roll number is not read back as
    the text that was written (a number is read for "101").  Both calls return
    [True], the second under any clock, that of the same day included, and the
    workbook ends with two rows for the student. *)
Theorem mark_attendance_twice_marks_twice
    (convert : list cell -> cell -> cell)
    (student_name roll_no : string) (now1 now2 : datetime) :
  convert [Text roll_no] (Text roll_no) <> Text roll_no ->
  let first := mark_attendance convert NoFile student_name roll_no now1 None in
  let second :=
    mark_attendance convert (snd first) student_name roll_no now2 None in
  snd (fst first) = Return true
  /\ snd first = Sheet [new_row student_name roll_no now1]
  /\ snd (fst second) = Return true
  /\ snd second
     = Sheet [read_row convert [new_row student_name roll_no now1]
                (new_row student_name roll_no now1);
              new_row student_name roll_no now2].
Proof.
  intros Hconv first second.
  assert (Hfirst : first = (([MsgMarked student_name roll_no (strftime_time now1)],
                             Return true),
                            Sheet [new_row student_name roll_no now1]))
    by (subst first; now rewrite mark_attendance_eq).
  subst second. rewrite Hfirst. cbn [fst snd].
  rewrite mark_attendance_eq. cbn [read_error]. rewrite frame_of_sheet.
  cbn [map select filter read_row new_row col_roll_no col_date].
  rewrite (eq_str_false _ _ Hconv). cbn [andb List.length Nat.ltb Nat.leb].
  repeat split; reflexivity.
Qed.

Lemma mark_attendance_twice_marks_twice_witness :
  Scenario.convert [Text "101"] (Text "101") <> Text "101"
  /\ strftime_date Scenario.morning = strftime_date Scenario.evening
  /\ (let first :=
        mark_attendance Scenario.convert NoFile "JohnDoe" "101"
          Scenario.morning None in
      let second :=
        mark_attendance Scenario.convert (snd first) "JohnDoe" "101"
          Scenario.evening None in
      snd (fst first) = Return true
      /\ snd first = Sheet [new_row "JohnDoe" "101" Scenario.morning]
      /\ snd (fst second) = Return true
      /\ snd second
         = Sheet [read_row Scenario.convert
                    [new_row "JohnDoe" "101" Scenario.morning]
                    (new_row "JohnDoe" "101" Scenario.morning);
                  new_row "JohnDoe" "101" Scenario.evening]).
Proof.
  assert (H : Scenario.convert [Text "101"] (Text "101") <> Text "101")
    by (vm_compute; discriminate).
  split; [exact H|]. split; [reflexivity|].
  apply (mark_attendance_twice_marks_twice Scenario.convert "JohnDoe" "101"
           Scenario.morning Scenario.evening H).
Defined.

(** C6 (the code departs from it): a call of [mark_attendance] that marks
    rewrites the sheet from what [pd.read_excel] made of it.  When the roll
    number of the row already there is not read back as stored (the "N/A" the
    program itself writes is read as missing, "007" as 7), the row written in
    its place differs from it. *)
Theorem mark_attendance_rewrites_rows
    (convert : list cell -> cell -> cell) (old : row)
    (student_name roll_no : string) (now : datetime) :
  convert [col_roll_no old] (col_roll_no old) <> col_roll_no old ->
  snd (fst (mark_attendance convert (Sheet [old]) student_name roll_no now None))
  = Return true ->
  exists r,
    snd (mark_attendance convert (Sheet [old]) student_name roll_no now None)
    = Sheet [r; new_row student_name roll_no now]
    /\ col_roll_no r = convert [col_roll_no old] (col_roll_no old)
    /\ r <> old.
Proof.
  intros Hconv. rewrite mark_attendance_eq. cbn [read_error].
  destruct (0 <? _); [discriminate|]. intros _.
  exists (read_row convert [old] old). split; [reflexivity|].
  split; [reflexivity|].
  intros E. apply Hconv. rewrite <- E at 3. reflexivity.
Qed.

Lemma mark_attendance_rewrites_rows_witness :
  exists r,
    snd (mark_attendance Scenario.convert
           (Sheet [new_row "JaneSmith" "N/A" Scenario.morning])
           "JohnDoe" "CS101" Scenario.evening None)
    = Sheet [r; new_row "JohnDoe" "CS101" Scenario.evening]
    /\ col_roll_no r
       = Scenario.convert [Text "N/A"] (Text "N/A")
    /\ r <> new_row "JaneSmith" "N/A" Scenario.morning.
Proof.
  apply (mark_attendance_rewrites_rows Scenario.convert
           (new_row "JaneSmith" "N/A" Scenario.morning)
           "JohnDoe" "CS101" Scenario.evening).
  - vm_compute. discriminate.
  - reflexivity.
Defined.

(** What the sheet of that scenario becomes: Jane Smith's roll number, the
    "N/A" the program wrote, is now an empty cell. *)
Example mark_attendance_erases_sentinel :
  snd (mark_attendance Scenario.convert
         (Sheet [new_row "JaneSmith" "N/A" Scenario.morning])
         "JohnDoe" "CS101" Scenario.evening None)
  = Sheet [ {| col_roll_no := Missing; col_name := Text "JaneSmith";
               col_date := Text "2024-03-07"; col_time := Text "09:05:00" |};
            {| col_roll_no := Text "CS101"; col_name := Text "JohnDoe";
               col_date := Text "2024-03-07"; col_time := Text "17:30:12" |} ].
Proof. reflexivity. Qed.

(** C8 (the code departs from it in its first part): for a sheet whose only
    row holds exactly the roll number and the date asked for, as texts,
    [check_duplicate_attendance] returns [False] when the roll number is not
    read back as that text; for a workbook that does not exist it returns
    [False], as claimed. *)
Theorem check_duplicate_attendance_misses
    (convert : list cell -> cell -> cell)
    (student_name roll_no date_str time_str : string) :
  convert [Text roll_no] (Text roll_no) <> Text roll_no ->
  check_duplicate_attendance convert
    (Sheet [ {| col_roll_no := Text roll_no; col_name := Text student_name;
                col_date := Text date_str; col_time := Text time_str |} ])
    roll_no date_str
  = Return false
  /\ check_duplicate_attendance convert NoFile roll_no date_str = Return false.
Proof.
  intros Hconv. split; [|reflexivity].
  rewrite check_duplicate_attendance_eq. cbn [read_error].
  rewrite frame_of_sheet.
  cbn [map select filter read_row col_roll_no col_date].
  now rewrite (eq_str_false _ _ Hconv).
Qed.

Lemma check_duplicate_attendance_misses_witness :
  check_duplicate_attendance Scenario.convert
    (Sheet [ {| col_roll_no := Text "101"; col_name := Text "JohnDoe";
                col_date := Text "2024-03-07"; col_time := Text "09:05:00" |} ])
    "101" "2024-03-07"
  = Return false
  /\ check_duplicate_attendance Scenario.convert NoFile "101" "2024-03-07"
     = Return false.
Proof.
  apply (check_duplicate_attendance_misses Scenario.convert
           "JohnDoe" "101" "2024-03-07" "09:05:00").
  vm_compute. discriminate.
Defined.

(** ** Loading the gallery *)

Section Loading.

Context {encoding : Type}.

Lemma load_file_skip (read : string -> image_outcome encoding)
    (acc : AttendanceSystem encoding * list message) (filename : string) :
  Str.endswith_any (Str.lower filename) valid_extensions = false ->
  load_file read acc filename = acc.
Proof.
  intros H. unfold load_file. destruct acc as [self out]. now rewrite H.
Qed.

Lemma load_file_ext (read read' : string -> image_outcome encoding)
    (acc : AttendanceSystem encoding * list message) (filename : string) :
  (Str.endswith_any (Str.lower filename) valid_extensions = true ->
   read' filename = read filename) ->
  load_file read' acc filename = load_file read acc filename.
Proof.
  intros H. unfold load_file. destruct acc as [self out].
  destruct (Str.endswith_any _ _); [|reflexivity]. now rewrite H.
Qed.

Lemma fold_load_file_ext (read read' : string -> image_outcome encoding)
    (filenames : list string) (acc : AttendanceSystem encoding * list message) :
  (forall f, In f filenames ->
             Str.endswith_any (Str.lower f) valid_extensions = true ->
             read' f = read f) ->
  fold_left (load_file read') filenames acc
  = fold_left (load_file read) filenames acc.
Proof.
  revert acc. induction filenames as [|f l IH]; intros acc H; simpl.
  - reflexivity.
  - rewrite (load_file_ext read read' acc f) by (apply H; now left).
    apply IH. intros g Hg. apply H. now right.
Qed.

Lemma splitext_root_nonempty (filename : string) :
  Str.endswith_any (Str.lower filename) valid_extensions = true ->
  fst (splitext filename) <> EmptyString.
Proof.
  intros H. assert (Hne : filename <> EmptyString).
  { intros ->. discriminate. }
  unfold splitext. destruct (Str.rfind "." filename) as [i|]; [|exact Hne].
  destruct (Str.has_other "." (Str.take i filename)) eqn:E; [|exact Hne].
  simpl. intros E'. rewrite E' in E. discriminate.
Qed.

Lemma load_file_loaded (read : string -> image_outcome encoding)
    (acc : AttendanceSystem encoding * list message) (filename : string) :
  loaded (fst acc) -> loaded (fst (load_file read acc filename)).
Proof.
  destruct acc as [self out]. unfold load_file.
  destruct (Str.endswith_any _ _) eqn:E; [|auto].
  destruct (read filename) as [[|first l]|err]; auto.
  intros [Hpar Hne]. split.
  - unfold parallel in *. simpl in *. rewrite !length_app, Hpar. reflexivity.
  - simpl. apply Forall_app. split; [exact Hne|].
    constructor; [|constructor]. now apply splitext_root_nonempty.
Qed.

Lemma load_known_faces_loaded (read : string -> image_outcome encoding)
    (filenames : list string) (out : list message)
    (self : AttendanceSystem encoding) :
  load_known_faces (Some filenames) read = (out, Return self) -> loaded self.
Proof.
  unfold load_known_faces.
  assert (H : forall l acc, loaded (fst acc) ->
                            loaded (fst (fold_left (load_file read) l acc))).
  { induction l as [|f l IH]; intros acc Hacc; simpl; [exact Hacc|].
    apply IH. now apply load_file_loaded. }
  specialize (H filenames
                ({| known_faces := []; known_names := [] |},
                 [MsgLoadingKnownFaces; MsgExpectedFormat])).
  destruct (fold_left _ _ _) as [self' out'].
  intros [= _ <-]. apply H. split; [reflexivity | constructor].
Qed.

End Loading.

(** C10: a directory entry whose lower-cased name ends in none of ".jpg",
    ".jpeg", ".png" leaves the loop's state as it is; what is loaded and what
    is printed (the skips and the total among it) are the same as if the entry
    were not in the directory, whatever the encoder would do with it. *)
Theorem load_known_faces_skips_other_files {encoding : Type}
    (read read' : string -> image_outcome encoding)
    (before after : list string) (filename : string) :
  Str.endswith_any (Str.lower filename) valid_extensions = false ->
  (forall f, f <> filename -> read' f = read f) ->
  (forall acc, load_file read' acc filename = acc)
  /\ load_known_faces (Some (before ++ filename :: after)) read'
     = load_known_faces (Some (before ++ after)) read.
Proof.
  intros Hext Hread. split; [intros acc; now apply load_file_skip|].
  unfold load_known_faces. rewrite !fold_left_app. simpl.
  rewrite (load_file_skip read' _ filename Hext).
  assert (Hfold : forall l acc,
            fold_left (load_file read') l acc = fold_left (load_file read) l acc).
  { intros l acc. apply fold_load_file_ext. intros f _ Hf. apply Hread.
    intros ->. congruence. }
  now rewrite !Hfold.
Qed.

Lemma load_known_faces_skips_other_files_witness :
  load_known_faces
    (Some ["JohnDoe_101.jpg"%string; "notes.txt"%string; "wall.png"%string])
    Scenario.read'
  = load_known_faces (Some ["JohnDoe_101.jpg"%string; "wall.png"%string])
      Scenario.read.
Proof.
  apply (load_known_faces_skips_other_files Scenario.read Scenario.read'
           ["JohnDoe_101.jpg"%string] ["wall.png"%string] "notes.txt"%string).
  - reflexivity.
  - intros f Hf. unfold Scenario.read'.
    destruct (String.eqb f "notes.txt") eqn:E; [|reflexivity].
    apply String.eqb_eq in E. contradiction.
Defined.

(** The loading of a small directory: one face kept per image, the image
    without a face and the unreadable one reported, the text file passed
    over in silence. *)
Example load_known_faces_directory :
  load_known_faces
    (Some ["JohnDoe_101.JPG"%string; "notes.txt"%string; "wall.png"%string;
           "broken.jpeg"%string])
    Scenario.read
  = ([MsgLoadingKnownFaces; MsgExpectedFormat; MsgLoaded "JohnDoe_101";
      MsgNoFaceDetectedIn "wall.png";
      MsgErrorLoading "broken.jpeg" "cannot identify image file";
      MsgTotalLoaded 1],
     Return {| known_faces := [1%Q]; known_names := ["JohnDoe_101"%string] |}).
Proof. reflexivity. Qed.

(** ** One attempt, end to end *)

(** The scenario of the first mark: the captured encoding equals the only
    known one, the workbook does not exist yet. *)
Example run_marks_once :
  run Scenario.convert Scenario.distance Scenario.john (Some [0%Q])
    Scenario.morning None NoFile
  = (([MsgRecognized "JohnDoe" "101" (1 - (0 - 0))%Q;
       MsgMarked "JohnDoe" "101" "09:05:00"], Return tt),
     Sheet [ {| col_roll_no := Text "101"; col_name := Text "JohnDoe";
                col_date := Text "2024-03-07";
                col_time := Text "09:05:00" |} ]).
Proof. reflexivity. Qed.

(** The same student again on that day: the roll number comes back from the
    sheet as the number 101, no duplicate is found, and a second row is
    written. *)
Example run_marks_again :
  let file := snd (run Scenario.convert Scenario.distance Scenario.john
                     (Some [0%Q]) Scenario.morning None NoFile) in
  run Scenario.convert Scenario.distance Scenario.john (Some [0%Q])
    Scenario.evening None file
  = (([MsgRecognized "JohnDoe" "101" (1 - (0 - 0))%Q;
       MsgMarked "JohnDoe" "101" "17:30:12"], Return tt),
     Sheet [ {| col_roll_no := Number (inject_Z 101);
                col_name := Text "JohnDoe";
                col_date := Text "2024-03-07";
                col_time := Text "09:05:00" |};
             {| col_roll_no := Text "101"; col_name := Text "JohnDoe";
                col_date := Text "2024-03-07";
                col_time := Text "17:30:12" |} ]).
Proof. reflexivity. Qed.

(** * Further properties *)

(** ** Loading, as a map over the directory *)

Lemma load_file_eq {encoding : Type} (read : string -> image_outcome encoding)
    (filename : string) (self : AttendanceSystem encoding) (out : list message) :
  load_file read (self, out) filename
  = ({| known_faces := known_faces self ++ map fst (entry read filename);
        known_names := known_names self ++ map snd (entry read filename) |},
     out ++ report read filename).
Proof.
  unfold load_file, entry, report, is_image.
  destruct (Str.endswith_any (Str.lower filename) valid_extensions);
    [destruct (read filename) as [[|first others]|err]|];
    cbn [map fst snd]; rewrite ?app_nil_r; try reflexivity;
    now destruct self.
Qed.

Lemma fold_load_file_eq {encoding : Type} (read : string -> image_outcome encoding)
    (filenames : list string) (self : AttendanceSystem encoding)
    (out : list message) :
  fold_left (load_file read) filenames (self, out)
  = ({| known_faces := known_faces self ++ map fst (flat_map (entry read) filenames);
        known_names := known_names self ++ map snd (flat_map (entry read) filenames) |},
     out ++ flat_map (report read) filenames).
Proof.
  revert self out. induction filenames as [|f l IH]; intros self out.
  - simpl. rewrite !app_nil_r. now destruct self.
  - cbn [fold_left flat_map]. rewrite load_file_eq, IH.
    cbn [known_faces known_names]. now rewrite !map_app, !app_assoc.
Qed.

Lemma load_known_faces_eq {encoding : Type} (read : string -> image_outcome encoding)
    (filenames : list string) :
  load_known_faces (Some filenames) read
  = ([MsgLoadingKnownFaces; MsgExpectedFormat]
       ++ flat_map (report read) filenames
       ++ [MsgTotalLoaded (List.length (flat_map (entry read) filenames))],
     Return {| known_faces := map fst (flat_map (entry read) filenames);
               known_names := map snd (flat_map (entry read) filenames) |}).
Proof.
  unfold load_known_faces. rewrite fold_load_file_eq.
  cbn [known_faces known_names app]. now rewrite length_map.
Qed.

(** X1: for a directory that exists, [load_known_faces] never raises,
    whatever reading the images does: the gallery holds, in the order of the
    listing, the first face and the name without extension of every image in
    which a face is found, and the total printed is their number. *)
Theorem load_known_faces_gallery {encoding : Type}
    (read : string -> image_outcome encoding) (filenames : list string) :
  exists out : list message,
    load_known_faces (Some filenames) read
    = (out,
       Return {| known_faces := map fst (flat_map (entry read) filenames);
                 known_names := map snd (flat_map (entry read) filenames) |})
    /\ last out MsgLoadingKnownFaces
       = MsgTotalLoaded (List.length (flat_map (entry read) filenames))
    /\ (forall e, ~ In (MsgTotalLoaded e) (removelast out)).
Proof.
  rewrite load_known_faces_eq. eexists. split; [reflexivity|].
  rewrite !app_assoc. split; [apply last_last|].
  rewrite removelast_last. intros e [H | [H | H]]; try discriminate.
  apply in_flat_map in H. destruct H as (f & _ & H).
  unfold report in H. destruct (is_image f); [|destruct H].
  destruct (read f) as [[|]|]; destruct H as [H | []]; discriminate.
Qed.

Lemma report_entry_length {encoding : Type} (read : string -> image_outcome encoding)
    (filenames : list string) :
  List.length (flat_map (entry read) filenames)
  + List.length (filter is_skip (flat_map (report read) filenames))
  = List.length (filter is_image filenames).
Proof.
  induction filenames as [|f l IH]; [reflexivity|].
  cbn [flat_map filter]. rewrite filter_app, !length_app.
  unfold entry at 1, report at 1.
  destruct (is_image f); [destruct (read f) as [[|]|]|]; simpl; lia.
Qed.

(** X2: every image file of the directory is accounted for once: the faces
    loaded and the skips reported (no face, or an error) add up to the number
    of entries with an image extension. *)
Theorem load_known_faces_accounts (encoding : Type)
    (read : string -> image_outcome encoding) (filenames : list string)
    (out : list message) (self : AttendanceSystem encoding) :
  load_known_faces (Some filenames) read = (out, Return self) ->
  List.length (known_faces self) + List.length (filter is_skip out)
  = List.length (filter is_image filenames).
Proof.
  rewrite load_known_faces_eq. intros [= <- <-].
  cbn [known_faces]. rewrite length_map.
  cbn [app filter is_skip]. rewrite filter_app. cbn [filter is_skip].
  rewrite app_nil_r. apply report_entry_length.
Qed.

Lemma load_known_faces_accounts_witness :
  List.length [1%Q]
  + List.length
      (filter is_skip
         [MsgLoadingKnownFaces; MsgExpectedFormat; MsgLoaded "JohnDoe_101";
          MsgNoFaceDetectedIn "wall.png";
          MsgErrorLoading "broken.jpeg" "cannot identify image file";
          MsgTotalLoaded 1])
  = List.length
      (filter is_image
         ["JohnDoe_101.JPG"%string; "notes.txt"%string; "wall.png"%string;
          "broken.jpeg"%string]).
Proof.
  apply (load_known_faces_accounts Q Scenario.read
           ["JohnDoe_101.JPG"%string; "notes.txt"%string; "wall.png"%string;
            "broken.jpeg"%string]
           _ {| known_faces := [1%Q]; known_names := ["JohnDoe_101"%string] |}).
  reflexivity.
Defined.

(** ** The names of the gallery *)
















(** A file named by its extension alone keeps the extension in its gallery
    name: [os.path.splitext] takes leading dots as part of the name. *)
Example load_known_faces_dot_file :
  snd (load_known_faces (Some [".jpg"%string]) Scenario.read)
  = Return {| known_faces := [1%Q]; known_names := [".jpg"%string] |}.
Proof. reflexivity. Qed.

(** ** More on the matcher *)

(** X4: on a gallery built by [load_known_faces], [recognize_face] never
    raises: for every frame and tolerance it returns a match or [None]. *)
Theorem recognize_face_after_load (encoding : Type)
    (distance : encoding -> encoding -> Q)
    (read : string -> image_outcome encoding) (filenames : list string)
    (out : list message) (self : AttendanceSystem encoding)
    (face_encodings : list encoding) (tolerance : Q) :
  load_known_faces (Some filenames) read = (out, Return self) ->
  exists (printed : list message) (result : option (string * string)),
    recognize_face distance self face_encodings tolerance
    = (printed, Return result).
Proof.
  intros Hload. apply load_known_faces_loaded in Hload. destruct Hload as [Hpar _].
  destruct face_encodings as [|q rest].
  - now exists [MsgNoFacesDetected], None.
  - destruct (recognize_face_result distance self q rest tolerance Hpar)
      as [(_ & m & full_name & _ & _ & _ & ->) | (_ & ->)]; now eexists _, _.
Qed.

Lemma recognize_face_after_load_witness :
  exists (printed : list message) (result : option (string * string)),
    recognize_face Scenario.distance
      {| known_faces := [1%Q]; known_names := ["JohnDoe_101"%string] |}
      [(1 # 2)%Q] (6 # 10)
    = (printed, Return result).
Proof.
  apply (recognize_face_after_load Q Scenario.distance Scenario.read
           ["JohnDoe_101.JPG"%string; "notes.txt"%string; "wall.png"%string;
            "broken.jpeg"%string]
           [MsgLoadingKnownFaces; MsgExpectedFormat; MsgLoaded "JohnDoe_101";
            MsgNoFaceDetectedIn "wall.png";
            MsgErrorLoading "broken.jpeg" "cannot identify image file";
            MsgTotalLoaded 1]).
  reflexivity.
Defined.

(** X5: what [recognize_face] prints agrees with what it returns.  A match
    is announced by one message, the last, carrying the returned name and
    roll number and the confidence 1 - d for the distance d of some known
    face; the confidence is at least 1 - tolerance.  A frame with a face and
    no match ends with the "not recognized" message. *)
Theorem recognize_face_confidence (encoding : Type)
    (distance : encoding -> encoding -> Q) (self : AttendanceSystem encoding)
    (q : encoding) (rest : list encoding) (tolerance : Q)
    (printed : list message) :
  (forall name roll_no,
     recognize_face distance self (q :: rest) tolerance
     = (printed, Return (Some (name, roll_no))) ->
     exists known,
       In known (known_faces self)
       /\ printed = faces_warning (q :: rest)
                    ++ [MsgRecognized name roll_no (1 - distance known q)%Q]
       /\ (1 - tolerance <= 1 - distance known q)%Q)
  /\ (recognize_face distance self (q :: rest) tolerance
      = (printed, Return None) ->
      printed = faces_warning (q :: rest) ++ [MsgNotRecognized]).
Proof.
  rewrite recognize_face_eq.
  set (ds := face_distance distance (known_faces self) q).
  destruct (within distance self q tolerance) eqn:W.
  - split.
    + intros name roll_no H.
      apply within_iff in W. destruct W as (d0 & Hd0 & Htol). fold ds in Hd0.
      assert (Hne : ds <> []) by (intros E; rewrite E in Hd0; destruct Hd0).
      destruct (best_index_first_min ds Hne) as (m & Hb & Hle & _).
      rewrite Hb in H.
      destruct (nth_error (known_names self) (best_index ds)) as [full_name|];
        [|discriminate].
      injection H as <- Hid.
      pose proof (nth_error_In _ _ Hb) as Hin.
      unfold ds, face_distance in Hin. apply in_map_iff in Hin.
      destruct Hin as (known & <- & Hknown).
      exists known. split; [exact Hknown|]. split.
      * now rewrite Hid.
      * specialize (Hle _ Hd0). lra.
    + destruct (nth_error ds (best_index ds)); [|discriminate].
      destruct (nth_error (known_names self) (best_index ds)); discriminate.
  - split; [discriminate|]. now intros [= <-].
Qed.

Lemma recognize_face_confidence_witness :
  exists known,
    In known (known_faces Scenario.gallery)
    /\ [MsgFacesWarning 2; MsgRecognized "JohnDoe" "101" (1 - ((1 # 2) - 0))%Q]
       = faces_warning [(1 # 2)%Q; 1%Q]
         ++ [MsgRecognized "JohnDoe" "101"
               (1 - Scenario.distance known (1 # 2))%Q]
    /\ (1 - (6 # 10) <= 1 - Scenario.distance known (1 # 2))%Q.
Proof.
  apply (proj1 (recognize_face_confidence Q Scenario.distance Scenario.gallery
                  (1 # 2)%Q [1%Q] (6 # 10)%Q
                  [MsgFacesWarning 2;
                   MsgRecognized "JohnDoe" "101" (1 - ((1 # 2) - 0))%Q])).
  reflexivity.
Defined.

Lemma contains_slash_sentinel (before : string) :
  Str.contains "/"%char (before ++ String "_"%char "N/A") = true.
Proof.
  induction before as [|a s IH]; [reflexivity|].
  simpl. now destruct (Ascii.eqb a "/").
Qed.

(** X6: labels that hold no slash, as the names of directory entries do,
    are told apart by the parsing: two of them with the same name and roll
    number are the same label. *)
Theorem parse_full_name_injective (label1 label2 : string) :
  Str.contains "/"%char label1 = false ->
  Str.contains "/"%char label2 = false ->
  parse_full_name label1 = parse_full_name label2 ->
  label1 = label2.
Proof.
  intros H1 H2. rewrite !parse_full_name_identity. unfold ret, identity_of.
  destruct (Str.partition "_" label1) as [[n1 r1]|] eqn:E1;
    destruct (Str.partition "_" label2) as [[n2 r2]|] eqn:E2;
    intros H.
  - injection H as Hn Hr.
    apply partition_some in E1, E2. destruct E1 as [-> _], E2 as [-> _].
    now subst.
  - injection H as Hn Hr.
    apply partition_some in E1. destruct E1 as [-> _]. subst r1.
    rewrite contains_slash_sentinel in H1. discriminate.
  - injection H as Hn Hr.
    apply partition_some in E2. destruct E2 as [-> _]. subst r2.
    rewrite contains_slash_sentinel in H2. discriminate.
  - now injection H.
Qed.

Lemma parse_full_name_injective_witness :
  "Jane_Smith_102"%string = "Jane_Smith_102"%string.
Proof.
  apply (parse_full_name_injective "Jane_Smith_102" "Jane_Smith_102");
    reflexivity.
Defined.

(** With a slash the sentinel can be imitated: these two labels are read as
    the same person. *)
Example parse_full_name_collision :
  parse_full_name "Ann_N/A" = parse_full_name "Ann".
Proof. reflexivity. Qed.

Lemma best_index_snoc (ds : list Q) (d x : Q) :
  In d ds -> (d <= x)%Q -> best_index (ds ++ [x]) = best_index ds.
Proof.
  intros Hd Hx.
  assert (Hne : ds <> []) by (intros E; rewrite E in Hd; destruct Hd).
  destruct (best_index_first_min ds Hne) as (m & Hm).
  assert (Hm' : first_min (ds ++ [x]) (best_index ds) m).
  { apply first_min_snoc_ge; [exact Hm|].
    destruct Hm as (_ & Hle & _). apply Qle_trans with d; auto. }
  assert (Hne' : ds ++ [x] <> []) by (destruct ds; discriminate).
  destruct (best_index_first_min (ds ++ [x]) Hne') as (m' & Hb').
  now destruct (first_min_unique _ _ _ _ _ Hb' Hm').
Qed.

(** X7: a face added at the end of the gallery that is no nearer to the
    captured encoding than some face already known changes nothing:
    [recognize_face] prints and returns the same. *)
Theorem recognize_face_farther_entry (encoding : Type)
    (distance : encoding -> encoding -> Q)
    (faces : list encoding) (names : list string)
    (face : encoding) (name : string) (known q : encoding)
    (rest : list encoding) (tolerance : Q) :
  List.length names = List.length faces ->
  In known faces ->
  (distance known q <= distance face q)%Q ->
  recognize_face distance
    {| known_faces := faces ++ [face]; known_names := names ++ [name] |}
    (q :: rest) tolerance
  = recognize_face distance
      {| known_faces := faces; known_names := names |} (q :: rest) tolerance.
Proof.
  intros Hlen Hknown Hfar. rewrite !recognize_face_eq.
  unfold within, face_distance. cbn [known_faces known_names].
  rewrite map_app. cbn [map].
  set (ds := map (fun k => distance k q) faces).
  set (x := distance face q).
  assert (Hd : In (distance known q) ds).
  { unfold ds. apply in_map_iff. now exists known. }
  rewrite (best_index_snoc ds _ x Hd Hfar).
  assert (Hne : ds <> []) by (intros E; rewrite E in Hd; destruct Hd).
  destruct (best_index_first_min ds Hne) as (m & Hb & Hle & _).
  assert (Hlt : best_index ds < List.length ds)
    by (apply nth_error_Some; congruence).
  rewrite nth_error_app1 by exact Hlt.
  assert (Hds : List.length ds = List.length faces) by apply length_map.
  rewrite nth_error_app1 by lia.
  rewrite existsb_app. cbn [existsb]. rewrite orb_false_r.
  destruct (existsb (fun d => Qle_bool d tolerance) ds) eqn:W; [reflexivity|].
  assert (Hx : Qle_bool x tolerance = false).
  { destruct (Qle_bool x tolerance) eqn:E; [|reflexivity].
    apply Qle_bool_iff in E.
    assert (existsb (fun d => Qle_bool d tolerance) ds = true); [|congruence].
    apply existsb_exists. exists (distance known q). split; [exact Hd|].
    apply Qle_bool_iff. apply Qle_trans with x; auto. }
  now rewrite Hx.
Qed.

Lemma recognize_face_farther_entry_witness :
  recognize_face Scenario.distance
    {| known_faces := [0%Q] ++ [3%Q];
       known_names := ["JohnDoe_101"%string] ++ ["_103"%string] |}
    [(1 # 2)%Q] (6 # 10)
  = recognize_face Scenario.distance
      {| known_faces := [0%Q]; known_names := ["JohnDoe_101"%string] |}
      [(1 # 2)%Q] (6 # 10).
Proof.
  apply (recognize_face_farther_entry Q Scenario.distance
           [0%Q] ["JohnDoe_101"%string] 3%Q "_103"%string 0%Q (1 # 2)%Q
           [] (6 # 10)%Q).
  - reflexivity.
  - left. reflexivity.
  - vm_compute. discriminate.
Defined.

(** ** More on the ledger *)

Lemma select_some_iff (df : DataFrame) (roll_no date_str : string) :
  (0 <? List.length (select df roll_no date_str)) = true <->
  exists r, In r df /\ col_roll_no r = Text roll_no /\ col_date r = Text date_str.
Proof.
  rewrite Nat.ltb_lt. split.
  - intros H. destruct (select df roll_no date_str) as [|r l] eqn:E;
      [simpl in H; lia|].
    exists r. apply select_In. rewrite E. now left.
  - intros (r & Hr). apply select_In in Hr.
    destruct (select df roll_no date_str); [destruct Hr | simpl; lia].
Qed.

Lemma map_fixed {A : Type} (f : A -> A) (l : list A) :
  map f l = l <-> forall x, In x l -> f x = x.
Proof.
  induction l as [|a l IH]; simpl.
  - split; [intros _ x [] | reflexivity].
  - split.
    + intros [= Ha Hl] x [<- | Hx]; [exact Ha | now apply IH].
    + intros H. f_equal; [apply H; now left | apply IH; auto].
Qed.

Section LedgerMore.

Variable convert : list cell -> cell -> cell.

(** A stored row whose roll number and date are kept is found again. *)
Lemma select_kept (cells : list row) (r : row) (roll_no date_str : string) :
  kept convert roll_no -> kept convert date_str ->
  In r cells -> col_roll_no r = Text roll_no -> col_date r = Text date_str ->
  (0 <? List.length (select (map (read_row convert cells) cells) roll_no date_str))
  = true.
Proof.
  intros Kr Kd Hin Hr Hd. apply select_some_iff.
  exists (read_row convert cells r). split; [now apply in_map|].
  cbn [read_row col_roll_no col_date]. rewrite Hr, Hd. split.
  - apply Kr. rewrite <- Hr. now apply in_map.
  - apply Kd. rewrite <- Hd. now apply in_map.
Qed.

Lemma mark_attendance_raises (file : workbook) (student_name roll_no : string)
    (now : datetime) (write_failure : option (exn * workbook)) (e : exn) :
  snd (fst (mark_attendance convert file student_name roll_no now write_failure))
  = Raise e
  <->
  read_error file = Some e
  \/ (read_error file = None
      /\ (0 <? List.length
                 (select (frame_of convert file) roll_no (strftime_date now)))
         = false
      /\ write_raises write_failure e).
Proof.
  rewrite mark_attendance_eq. unfold write_raises.
  destruct (read_error file) as [e'|].
  - cbn. split; [intros [= ->]; now left |].
    intros [[= ->] | ([=] & _)]. reflexivity.
  - destruct (0 <? _).
    + cbn. split; [discriminate|]. intros [[=] | (_ & [=] & _)].
    + destruct write_failure as [[e' remains]|]; cbn.
      * split; [intros [= ->]; right; eauto |].
        intros [[=] | (_ & _ & l & [= -> _])]. reflexivity.
      * split; [discriminate|]. intros [[=] | (_ & _ & l & [=])].
Qed.

(** What [mark_attendance] does to the file: nothing, when it does not come
    to write; what the failed write leaves; or the new sheet. *)
Lemma mark_attendance_file (file : workbook) (student_name roll_no : string)
    (now : datetime) (write_failure : option (exn * workbook)) :
  (snd (fst (mark_attendance convert file student_name roll_no now write_failure))
   <> Return true
   /\ snd (mark_attendance convert file student_name roll_no now write_failure)
      = file)
  \/ (exists e remains,
        write_failure = Some (e, remains)
        /\ snd (fst (mark_attendance convert file student_name roll_no now
                       write_failure)) = Raise e
        /\ snd (mark_attendance convert file student_name roll_no now
                  write_failure) = remains)
  \/ (snd (fst (mark_attendance convert file student_name roll_no now write_failure))
      = Return true
      /\ read_error file = None
      /\ (0 <? List.length
                 (select (frame_of convert file) roll_no (strftime_date now)))
         = false
      /\ write_failure = None
      /\ snd (mark_attendance convert file student_name roll_no now write_failure)
         = Sheet (frame_of convert file ++ [new_row student_name roll_no now])).
Proof.
  rewrite mark_attendance_eq.
  destruct (read_error file) as [e|]; [left; split; [discriminate | reflexivity]|].
  destruct (0 <? _); [left; split; [discriminate | reflexivity]|].
  destruct write_failure as [[e remains]|].
  - right. left. now exists e, remains.
  - right. right. repeat split; reflexivity.
Qed.

End LedgerMore.

(** X8: when the roll number and the date are texts that are read back as
    written (a roll number such as "CS101"), attendance is keyed by the roll
    number alone: once a student is marked, a call on that date with the
    same roll number is a duplicate under any name; it returns [False] and
    writes nothing. *)
Theorem mark_attendance_keyed_by_roll_no
    (convert : list cell -> cell -> cell) (file : workbook)
    (name1 name2 roll_no : string) (now1 now2 : datetime)
    (write_failure : option (exn * workbook)) :
  kept convert roll_no ->
  kept convert (strftime_date now1) ->
  strftime_date now1 = strftime_date now2 ->
  snd (fst (mark_attendance convert file name1 roll_no now1 None)) = Return true ->
  mark_attendance convert
    (snd (mark_attendance convert file name1 roll_no now1 None))
    name2 roll_no now2 write_failure
  = (([MsgAlreadyMarked name2 roll_no], Return false),
     snd (mark_attendance convert file name1 roll_no now1 None)).
Proof.
  intros Kr Kd Hd H1.
  destruct (mark_attendance_file convert file name1 roll_no now1 None)
    as [[Hn _] | [(e & remains & [=] & _) | (_ & _ & _ & _ & ->)]];
    [contradiction|].
  rewrite mark_attendance_eq. cbn [read_error]. rewrite frame_of_sheet.
  rewrite <- Hd.
  rewrite (select_kept convert _ (new_row name1 roll_no now1)); auto.
  apply in_or_app. right. now left.
Qed.

Lemma kept_CS101 : kept Scenario.convert "CS101".
Proof.
  intros column _. unfold Scenario.convert. cbn.
  now destruct (forallb Scenario.numeric column).
Qed.

Lemma kept_date : kept Scenario.convert (strftime_date Scenario.morning).
Proof.
  intros column _. unfold Scenario.convert.
  change (strftime_date Scenario.morning) with "2024-03-07"%string. cbn.
  now destruct (forallb Scenario.numeric column).
Qed.

Lemma mark_attendance_keyed_by_roll_no_witness :
  mark_attendance Scenario.convert
    (snd (mark_attendance Scenario.convert NoFile "Alice" "CS101"
            Scenario.morning None))
    "Bob" "CS101" Scenario.evening None
  = (([MsgAlreadyMarked "Bob" "CS101"], Return false),
     snd (mark_attendance Scenario.convert NoFile "Alice" "CS101"
            Scenario.morning None)).
Proof.
  apply (mark_attendance_keyed_by_roll_no Scenario.convert NoFile
           "Alice" "Bob" "CS101" Scenario.morning Scenario.evening None).
  - exact kept_CS101.
  - exact kept_date.
  - reflexivity.
  - reflexivity.
Defined.

(** The opposite for the sentinel: "N/A" is read back as a missing value, so
    two students without a roll number are both marked, and the first one's
    roll number is erased. *)
Example mark_attendance_sentinel_twice :
  mark_attendance Scenario.convert
    (snd (mark_attendance Scenario.convert NoFile "Alice" "N/A"
            Scenario.morning None))
    "Bob" "N/A" Scenario.evening None
  = (([MsgMarked "Bob" "N/A" "17:30:12"], Return true),
     Sheet [ {| col_roll_no := Missing; col_name := Text "Alice";
                col_date := Text "2024-03-07"; col_time := Text "09:05:00" |};
             {| col_roll_no := Text "N/A"; col_name := Text "Bob";
                col_date := Text "2024-03-07"; col_time := Text "17:30:12" |} ]).
Proof. reflexivity. Qed.

(** X9: how [mark_attendance] ends, on the frame [pd.read_excel] returns.
    It returns [True] exactly when the file can be read or does not exist,
    no row read has the roll number and the date as texts, and the write
    succeeds; [False] exactly when the file can be read and some row read
    has both.  It raises the exception of the read (any but
    [FileNotFoundError]) or, after a check that found nothing, the
    exception of the write.  On a failed read and on a duplicate the file is
    left as it was; after a failed write it is what that write left; when
    [True] is returned, the sheet is the frame read followed by the new
    row. *)
Theorem mark_attendance_outcomes
    (convert : list cell -> cell -> cell) (file : workbook)
    (student_name roll_no : string) (now : datetime)
    (write_failure : option (exn * workbook)) :
  let result :=
    mark_attendance convert file student_name roll_no now write_failure in
  let matching (r : row) :=
    col_roll_no r = Text roll_no /\ col_date r = Text (strftime_date now) in
  (snd (fst result) = Return true <->
   read_error file = None
   /\ (forall r, In r (frame_of convert file) -> ~ matching r)
   /\ write_failure = None)
  /\ (snd (fst result) = Return false <->
      read_error file = None
      /\ exists r, In r (frame_of convert file) /\ matching r)
  /\ (forall e, snd (fst result) = Raise e <->
        read_error file = Some e
        \/ (read_error file = None
            /\ (forall r, In r (frame_of convert file) -> ~ matching r)
            /\ write_raises write_failure e))
  /\ (read_error file <> None \/ snd (fst result) = Return false ->
      snd result = file)
  /\ (forall e remains,
        read_error file = None ->
        (forall r, In r (frame_of convert file) -> ~ matching r) ->
        write_failure = Some (e, remains) ->
        snd result = remains)
  /\ (snd (fst result) = Return true ->
      snd result
      = Sheet (frame_of convert file ++ [new_row student_name roll_no now])).
Proof.
  intros result matching. subst result matching. unfold write_raises.
  rewrite mark_attendance_eq.
  destruct (read_error file) as [e|].
  { cbn. repeat split; try discriminate; try tauto; try congruence.
    - intros ([=] & _).
    - intros ([=] & _).
    - intros [= ->]. now left.
    - intros [[= ->] | ([=] & _)]. reflexivity. }
  destruct (0 <? _) eqn:E.
  { pose proof (proj1 (select_some_iff _ _ _) E) as (r & Hr & Hm).
    cbn. repeat split; try discriminate; try tauto; try congruence.
    - intros (_ & H & _). exfalso. exact (H r Hr Hm).
    - exists r. tauto.
    - intros [[=] | (_ & H & _)]. exfalso. exact (H r Hr Hm).
    - intros e remains _ H. exfalso. exact (H r Hr Hm). }
  pose proof (proj1 (select_nil_iff _ _ _) E) as Hnone.
  destruct write_failure as [[e remains]|]; cbn.
  - repeat split; try discriminate; try tauto; try congruence.
    + intros (_ & _ & [=]).
    + intros (_ & r & Hr & Hm). exfalso. exact (Hnone r Hr Hm).
    + intros [= ->]. right. eauto.
    + intros [[=] | (_ & _ & l & [= -> _])]. reflexivity.
    + intros [H | [=]]. congruence.
  - repeat split; try discriminate; try tauto; try congruence.
    + intros (_ & r & Hr & Hm). exfalso. exact (Hnone r Hr Hm).
    + intros [[=] | (_ & _ & l & [=])].
    + intros [H | [=]]. congruence.
Qed.

(** X10: when old rows are preserved.  A call that marks on a sheet writes
    the rows that were there, unchanged, followed by the new row exactly when
    every stored row is read back by [pd.read_excel] as it is stored. *)
Theorem mark_attendance_preserves_iff
    (convert : list cell -> cell -> cell) (cells : list row)
    (student_name roll_no : string) (now : datetime) :
  snd (fst (mark_attendance convert (Sheet cells) student_name roll_no now None))
  = Return true ->
  (snd (mark_attendance convert (Sheet cells) student_name roll_no now None)
   = Sheet (cells ++ [new_row student_name roll_no now])
   <->
   forall r, In r cells -> read_row convert cells r = r).
Proof.
  intros H.
  destruct (mark_attendance_file convert (Sheet cells) student_name roll_no now None)
    as [[Hn _] | [(e & remains & [=] & _) | (_ & _ & _ & _ & ->)]];
    [contradiction|].
  rewrite frame_of_sheet, <- map_fixed. split.
  - intros [= E]. now apply app_inv_tail in E.
  - now intros ->.
Qed.

Lemma mark_attendance_preserves_iff_witness :
  snd (mark_attendance Scenario.convert
         (Sheet [new_row "JaneSmith" "CS102" Scenario.morning])
         "JohnDoe" "CS101" Scenario.evening None)
  = Sheet ([new_row "JaneSmith" "CS102" Scenario.morning]
           ++ [new_row "JohnDoe" "CS101" Scenario.evening]).
Proof.
  apply (proj2 (mark_attendance_preserves_iff Scenario.convert
                  [new_row "JaneSmith" "CS102" Scenario.morning]
                  "JohnDoe" "CS101" Scenario.evening eq_refl)).
  intros r [<- | []]. reflexivity.
Defined.

(** *** Dates *)

Lemma digit_inj (a b : nat) : digit a = digit b -> a mod 10 = b mod 10.
Proof.
  unfold digit. intros H. apply (f_equal nat_of_ascii) in H.
  pose proof (Nat.mod_upper_bound a 10 ltac:(lia)).
  pose proof (Nat.mod_upper_bound b 10 ltac:(lia)).
  rewrite !nat_ascii_embedding in H by lia. lia.
Qed.

Lemma decimal4 (n : nat) :
  n = 1000 * (n / 1000) + 100 * ((n / 100) mod 10) + 10 * ((n / 10) mod 10)
      + n mod 10.
Proof.
  pose proof (Nat.div_mod_eq n 10) as H1.
  pose proof (Nat.div_mod_eq (n / 10) 10) as H2.
  pose proof (Nat.div_mod_eq (n / 100) 10) as H3.
  rewrite Nat.Div0.div_div in H2. rewrite Nat.Div0.div_div in H3.
  change (10 * 10) with 100 in H2. change (100 * 10) with 1000 in H3.
  generalize dependent (n / 1000). generalize dependent (n / 100).
  generalize dependent (n / 10).
  intros q1. generalize (q1 mod 10). generalize (n mod 10).
  intros r0 r1 H1 q2. generalize (q2 mod 10). intros r2 H2 q3 H3. lia.
Qed.

Lemma pad2_inj (a b : nat) : a < 100 -> b < 100 -> pad2 a = pad2 b -> a = b.
Proof.
  intros Ha Hb H. unfold pad2 in H.
  assert (H1 : digit (a / 10) = digit (b / 10)) by congruence.
  assert (H2 : digit a = digit b) by congruence.
  apply digit_inj in H1, H2.
  assert (a / 10 < 10) by (apply Nat.Div0.div_lt_upper_bound; lia).
  assert (b / 10 < 10) by (apply Nat.Div0.div_lt_upper_bound; lia).
  rewrite (Nat.mod_small (a / 10)), (Nat.mod_small (b / 10)) in H1
    by assumption.
  rewrite (Nat.div_mod_eq a 10), (Nat.div_mod_eq b 10), H1, H2. reflexivity.
Qed.

Lemma pad4_inj (a b : nat) :
  a < 10 * 1000 -> b < 10 * 1000 -> pad4 a = pad4 b -> a = b.
Proof.
  intros Ha Hb H. unfold pad4, pad2 in H.
  assert (H1 : digit (a / 1000) = digit (b / 1000)) by congruence.
  assert (H2 : digit (a / 100) = digit (b / 100)) by congruence.
  assert (H3 : digit (a / 10) = digit (b / 10)) by congruence.
  assert (H4 : digit a = digit b) by congruence.
  apply digit_inj in H1, H2, H3, H4.
  assert (a / 1000 < 10) by (apply Nat.Div0.div_lt_upper_bound; lia).
  assert (b / 1000 < 10) by (apply Nat.Div0.div_lt_upper_bound; lia).
  rewrite (Nat.mod_small (a / 1000)), (Nat.mod_small (b / 1000)) in H1
    by assumption.
  rewrite (decimal4 a), (decimal4 b), H1, H2, H3, H4. reflexivity.
Qed.

Lemma strftime_date_inj (now1 now2 : datetime) :
  valid_date now1 -> valid_date now2 ->
  strftime_date now1 = strftime_date now2 ->
  year now1 = year now2 /\ month now1 = month now2 /\ day now1 = day now2.
Proof.
  intros (Hy1 & Hm1 & Hd1) (Hy2 & Hm2 & Hd2) H.
  unfold strftime_date in H.
  assert (Hsplit : forall y m d,
            (pad4 y ++ "-" ++ pad2 m ++ "-" ++ pad2 d)%string
            = String (digit (y / 1000)) (String (digit (y / 100))
                (String (digit (y / 10)) (String (digit y)
                  (String "-" (String (digit (m / 10)) (String (digit m)
                    (String "-" (String (digit (d / 10)) (String (digit d)
                      EmptyString))))))))))
    by reflexivity.
  rewrite !Hsplit in H.
  repeat split.
  - apply pad4_inj; auto. unfold pad4, pad2. congruence.
  - apply pad2_inj; auto. unfold pad2. congruence.
  - apply pad2_inj; auto. unfold pad2. congruence.
Qed.

(** X12: a day's mark does not block another day.  The inference making no
    text of its own, for two clock readings on different calendar days
    (years below 10000, as [datetime] has them) a student for whom the check
    finds no row on the second day is marked on it, whether the call of the
    first day marked or found a duplicate. *)
Theorem mark_attendance_next_day
    (convert : list cell -> cell -> cell) (file : workbook)
    (student_name roll_no : string) (now1 now2 : datetime) :
  text_from_text convert ->
  valid_date now1 -> valid_date now2 ->
  (year now1 <> year now2 \/ month now1 <> month now2 \/ day now1 <> day now2) ->
  check_duplicate_attendance convert file roll_no (strftime_date now2)
  = Return false ->
  snd (fst (mark_attendance convert
              (snd (mark_attendance convert file student_name roll_no now1
                      None))
              student_name roll_no now2 None))
  = Return true.
Proof.
  intros Htext V1 V2 Hdiff Hfresh.
  assert (Hdate : strftime_date now1 <> strftime_date now2).
  { intros E. apply strftime_date_inj in E; auto. tauto. }
  rewrite check_duplicate_attendance_eq in Hfresh.
  destruct (read_error file) as [e|] eqn:Hread; [discriminate|].
  injection Hfresh as Hfresh.
  destruct (mark_attendance_file convert file student_name roll_no now1 None)
    as [[_ ->] | [(e & remains & [=] & _) | (_ & _ & _ & _ & ->)]].
  - rewrite mark_attendance_eq, Hread, Hfresh. reflexivity.
  - rewrite mark_attendance_eq. cbn [read_error]. rewrite frame_of_sheet.
    set (cells := frame_of convert file ++ [new_row student_name roll_no now1]).
    assert (Hnone : (0 <? List.length
                            (select (map (read_row convert cells) cells) roll_no
                               (strftime_date now2))) = false).
    { apply select_nil_iff. intros r' Hr' [Hroll Hd].
      apply in_map_iff in Hr'. destruct Hr' as (r & <- & Hr).
      cbn [read_row col_roll_no col_date] in Hroll, Hd.
      apply Htext in Hroll, Hd.
      unfold cells in Hr. apply in_app_or in Hr. destruct Hr as [Hr | [<- | []]].
      - apply (proj1 (select_nil_iff _ _ _) Hfresh r Hr). now split.
      - cbn in Hd. congruence. }
    now rewrite Hnone.
Qed.

Lemma text_from_text_scenario : text_from_text Scenario.convert.
Proof.
  intros column [t| | |] s; unfold Scenario.convert; intros H;
    try congruence.
  destruct (Scenario.is_na t); [congruence|].
  destruct (forallb Scenario.numeric column); [|congruence].
  destruct (Scenario.integer t); congruence.
Qed.

Lemma mark_attendance_next_day_witness :
  snd (fst (mark_attendance Scenario.convert
              (snd (mark_attendance Scenario.convert NoFile "JohnDoe" "101"
                      Scenario.morning None))
              "JohnDoe" "101" Session.next_morning None))
  = Return true.
Proof.
  apply (mark_attendance_next_day Scenario.convert NoFile "JohnDoe" "101"
           Scenario.morning Session.next_morning).
  - exact text_from_text_scenario.
  - unfold valid_date. cbn. lia.
  - unfold valid_date. cbn. lia.
  - right. right. cbn. lia.
  - reflexivity.
Defined.

(** ** One attempt: [run] *)

Lemma bind_marked (out : list message) (marked : Log bool) :
  snd ((out, Return tt) ;;; marked ;;; ret tt)
  = match snd marked with
    | Return _ => Return tt
    | Raise e => Raise e
    end.
Proof. destruct marked as [m [b|e]]; reflexivity. Qed.

Section RunFacts.

Context {encoding : Type}.
Variable convert : list cell -> cell -> cell.
Variable distance : encoding -> encoding -> Q.

(** [run] when a face is recognized. *)
Lemma run_recognized (self : AttendanceSystem encoding)
    (face_encodings : list encoding) (now : datetime)
    (write_failure : option (exn * workbook)) (file : workbook)
    (student_name roll_no : string) :
  known_faces self <> [] ->
  snd (recognize_face distance self face_encodings (6 # 10))
  = Return (Some (student_name, roll_no)) ->
  snd (fst (run convert distance self (Some face_encodings) now write_failure file))
  = match snd (fst (mark_attendance convert file student_name roll_no now
                      write_failure)) with
    | Return _ => Return tt
    | Raise e => Raise e
    end
  /\ snd (run convert distance self (Some face_encodings) now write_failure file)
     = snd (mark_attendance convert file student_name roll_no now write_failure).
Proof.
  intros Hne Hrec. unfold run.
  destruct (known_faces self) as [|k ks]; [congruence|]. cbn [List.length Nat.eqb].
  destruct (recognize_face distance _ face_encodings (6 # 10)) as [out r].
  cbn [snd] in Hrec. subst r.
  destruct (mark_attendance convert file student_name roll_no now write_failure)
    as [marked file'].
  cbn [fst snd]. split; [apply bind_marked | reflexivity].
Qed.

(** [run] when no face is recognized, for a gallery with parallel lists. *)
Lemma run_not_recognized (self : AttendanceSystem encoding)
    (captured : option (list encoding)) (now : datetime)
    (write_failure : option (exn * workbook)) (file : workbook) :
  parallel self ->
  (forall face_encodings student_name roll_no,
     captured = Some face_encodings ->
     known_faces self <> [] ->
     snd (recognize_face distance self face_encodings (6 # 10))
     <> Return (Some (student_name, roll_no))) ->
  snd (fst (run convert distance self captured now write_failure file)) = Return tt
  /\ snd (run convert distance self captured now write_failure file) = file.
Proof.
  intros Hpar Hnot. unfold run.
  destruct (List.length (known_faces self) =? 0) eqn:L; [now split|].
  assert (Hne : known_faces self <> [])
    by (intros E; rewrite E in L; discriminate).
  destruct captured as [[|q rest]|]; [now split | | now split].
  destruct (recognize_face_result distance self q rest (6 # 10) Hpar)
    as [(_ & m & full_name & _ & _ & _ & E) | (_ & E)].
  - exfalso. destruct (identity_of full_name) as [n r] eqn:I.
    apply (Hnot (q :: rest) n r eq_refl Hne).
    rewrite E. reflexivity.
  - rewrite E. now split.
Qed.

End RunFacts.

(** X13: when [run] writes.  If a frame was captured, the gallery is not
    empty, the matcher (under the default tolerance 0.6) returns a name and a
    roll number, the file can be read or does not exist, no row read has that
    roll number and the date as texts, and the write succeeds, then the sheet
    becomes the frame read followed by the row of that student.  And
    whenever [run] changes the workbook, a face was recognized, the check
    found nothing and the write was attempted: the workbook is that new
    sheet, or what a failed write left. *)
Theorem run_writes (encoding : Type) (convert : list cell -> cell -> cell)
    (distance : encoding -> encoding -> Q) (self : AttendanceSystem encoding)
    (captured : option (list encoding)) (now : datetime)
    (write_failure : option (exn * workbook)) (file : workbook) :
  (forall face_encodings student_name roll_no,
     captured = Some face_encodings ->
     known_faces self <> [] ->
     snd (recognize_face distance self face_encodings (6 # 10))
     = Return (Some (student_name, roll_no)) ->
     check_duplicate_attendance convert file roll_no (strftime_date now)
     = Return false ->
     write_failure = None ->
     snd (run convert distance self captured now write_failure file)
     = Sheet (frame_of convert file ++ [new_row student_name roll_no now]))
  /\ (snd (run convert distance self captured now write_failure file) <> file ->
      exists face_encodings student_name roll_no,
        captured = Some face_encodings
        /\ known_faces self <> []
        /\ snd (recognize_face distance self face_encodings (6 # 10))
           = Return (Some (student_name, roll_no))
        /\ check_duplicate_attendance convert file roll_no (strftime_date now)
           = Return false
        /\ ((write_failure = None
             /\ snd (run convert distance self captured now write_failure file)
                = Sheet (frame_of convert file
                         ++ [new_row student_name roll_no now]))
            \/ exists e remains,
                 write_failure = Some (e, remains)
                 /\ snd (run convert distance self captured now write_failure
                           file) = remains)).
Proof.
  split.
  - intros face_encodings student_name roll_no -> Hne Hrec Hcheck ->.
    destruct (run_recognized convert distance self face_encodings now None file
                student_name roll_no Hne Hrec) as [_ ->].
    rewrite check_duplicate_attendance_eq in Hcheck.
    rewrite mark_attendance_eq.
    destruct (read_error file); [discriminate|].
    injection Hcheck as ->. reflexivity.
  - unfold run. destruct (known_faces self) as [|k ks] eqn:K;
      [intros H; exfalso; apply H; reflexivity|].
    cbn [List.length Nat.eqb].
    destruct captured as [face_encodings|];
      [|intros H; exfalso; apply H; reflexivity].
    destruct (recognize_face distance _ face_encodings (6 # 10))
      as [out [[[student_name roll_no]|]|e]] eqn:R;
      try (intros H; exfalso; apply H; reflexivity).
    pose proof (mark_attendance_eq convert file student_name roll_no now
                  write_failure) as Heq.
    destruct (mark_attendance convert file student_name roll_no now write_failure)
      as [marked file']. cbn [snd]. intros Hchanged.
    exists face_encodings, student_name, roll_no.
    split; [reflexivity|]. split; [discriminate|]. split; [now rewrite R|].
    rewrite check_duplicate_attendance_eq.
    destruct (read_error file); [congruence|].
    destruct (0 <? _); [congruence|]. split; [reflexivity|].
    destruct write_failure as [[e remains]|].
    + right. exists e, remains. split; [reflexivity | congruence].
    + left. split; [reflexivity | congruence].
Qed.

Lemma run_writes_witness :
  snd (run Scenario.convert Scenario.distance Scenario.john (Some [0%Q])
         Scenario.morning None NoFile)
  = Sheet (frame_of Scenario.convert NoFile
           ++ [new_row "JohnDoe" "101" Scenario.morning]).
Proof.
  apply (proj1 (run_writes Q Scenario.convert Scenario.distance Scenario.john
                  (Some [0%Q]) Scenario.morning None NoFile)
           [0%Q] "JohnDoe"%string "101"%string); try reflexivity.
  discriminate.
Defined.

Lemma run_raises (encoding : Type) (convert : list cell -> cell -> cell)
    (distance : encoding -> encoding -> Q) (self : AttendanceSystem encoding)
    (captured : option (list encoding)) (now : datetime)
    (write_failure : option (exn * workbook)) (file : workbook) (e : exn) :
  parallel self ->
  (snd (fst (run convert distance self captured now write_failure file)) = Raise e
   <->
   exists face_encodings student_name roll_no,
     captured = Some face_encodings
     /\ known_faces self <> []
     /\ snd (recognize_face distance self face_encodings (6 # 10))
        = Return (Some (student_name, roll_no))
     /\ snd (fst (mark_attendance convert file student_name roll_no now
                    write_failure)) = Raise e).
Proof.
  intros Hpar. split.
  - intros H.
    destruct captured as [face_encodings|].
    + destruct (known_faces self) as [|k ks] eqn:K.
      { unfold run in H. rewrite K in H. discriminate. }
      destruct (snd (recognize_face distance self face_encodings (6 # 10)))
        as [[[student_name roll_no]|]|e'] eqn:R.
      * assert (Hne : known_faces self <> []) by (rewrite K; discriminate).
        destruct (run_recognized convert distance self face_encodings now
                    write_failure file student_name roll_no Hne R) as [Hr _].
        rewrite Hr in H.
        exists face_encodings, student_name, roll_no.
        split; [reflexivity|]. split; [rewrite <- K; exact Hne|].
        split; [exact R|].
        destruct (snd (fst (mark_attendance convert file student_name roll_no now
                              write_failure))); [discriminate | congruence].
      * destruct (run_not_recognized convert distance self (Some face_encodings)
                    now write_failure file Hpar) as [Hr _]; [|congruence].
        intros f n r [= <-] _. congruence.
      * destruct (run_not_recognized convert distance self (Some face_encodings)
                    now write_failure file Hpar) as [Hr _]; [|congruence].
        intros f n r [= <-] _. congruence.
    + destruct (run_not_recognized convert distance self None now write_failure
                  file Hpar) as [Hr _]; [|congruence].
      intros f n r [=].
  - intros (face_encodings & student_name & roll_no & -> & Hne & Hrec & Hm).
    destruct (run_recognized convert distance self face_encodings now write_failure
                file student_name roll_no Hne Hrec) as [-> _].
    now rewrite Hm.
Qed.

(** X15: with a gallery built by [load_known_faces], the only exceptions
    [run] raises are those of the ledger.  It raises [e] exactly when a face
    was captured and recognized and either reading the workbook raises [e]
    (any failure but [FileNotFoundError]: not a workbook, no permission, no
    column "Roll No") or the check finds no row and writing raises [e]; in all
    other cases it returns normally.  The calls of the camera and of the face
    library that [run] makes are taken to return. *)
Theorem run_after_load (encoding : Type) (convert : list cell -> cell -> cell)
    (distance : encoding -> encoding -> Q)
    (read : string -> image_outcome encoding) (filenames : list string)
    (out : list message) (self : AttendanceSystem encoding)
    (captured : option (list encoding)) (now : datetime)
    (write_failure : option (exn * workbook)) (file : workbook) :
  load_known_faces (Some filenames) read = (out, Return self) ->
  (forall e,
     snd (fst (run convert distance self captured now write_failure file)) = Raise e
     <->
     exists face_encodings student_name roll_no,
       captured = Some face_encodings
       /\ known_faces self <> []
       /\ snd (recognize_face distance self face_encodings (6 # 10))
          = Return (Some (student_name, roll_no))
       /\ (read_error file = Some e
           \/ (read_error file = None
               /\ check_duplicate_attendance convert file roll_no
                    (strftime_date now) = Return false
               /\ write_raises write_failure e)))
  /\ ((forall e,
         snd (fst (run convert distance self captured now write_failure file))
         <> Raise e) ->
      snd (fst (run convert distance self captured now write_failure file))
      = Return tt).
Proof.
  intros Hload. apply load_known_faces_loaded in Hload. destruct Hload as [Hpar _].
  split.
  - intros e. rewrite (run_raises encoding convert distance self captured now
                         write_failure file e Hpar).
    split; intros (f & n & r & Hc & Hne & Hrec & H); exists f, n, r;
      (split; [exact Hc|]); (split; [exact Hne|]); (split; [exact Hrec|]).
    + apply mark_attendance_raises in H.
      destruct H as [H | (Hr & Hs & Hw)]; [now left | right].
      split; [exact Hr|]. split; [|exact Hw].
      now rewrite check_duplicate_attendance_eq, Hr, Hs.
    + apply mark_attendance_raises.
      destruct H as [H | (Hr & Hs & Hw)]; [now left | right].
      split; [exact Hr|]. split; [|exact Hw].
      rewrite check_duplicate_attendance_eq, Hr in Hs. now injection Hs.
  - intros Hno.
    destruct (snd (fst (run convert distance self captured now write_failure file)))
      as [[]|e] eqn:E; [reflexivity|]. exfalso. exact (Hno e eq_refl).
Qed.

Lemma run_after_load_witness :
  load_known_faces (Some ["JohnDoe_101.JPG"%string]) Scenario.read
  = ([MsgLoadingKnownFaces; MsgExpectedFormat; MsgLoaded "JohnDoe_101";
      MsgTotalLoaded 1],
     Return {| known_faces := [1%Q]; known_names := ["JohnDoe_101"%string] |})
  /\ snd (fst (run Scenario.convert Scenario.distance
                 {| known_faces := [1%Q]; known_names := ["JohnDoe_101"%string] |}
                 (Some [1%Q]) Scenario.morning None
                 (Unreadable (OSError "Permission denied"))))
     = Raise (OSError "Permission denied").
Proof.
  split; [reflexivity|].
  apply (proj1 (run_after_load Q Scenario.convert Scenario.distance Scenario.read
                  ["JohnDoe_101.JPG"%string]
                  [MsgLoadingKnownFaces; MsgExpectedFormat;
                   MsgLoaded "JohnDoe_101"; MsgTotalLoaded 1]
                  {| known_faces := [1%Q];
                     known_names := ["JohnDoe_101"%string] |}
                  (Some [1%Q]) Scenario.morning None
                  (Unreadable (OSError "Permission denied")) eq_refl)).
  exists [1%Q], "JohnDoe"%string, "101"%string.
  split; [reflexivity|]. split; [discriminate|]. split; [reflexivity|].
  left. reflexivity.
Defined.

(** ** The camera loop *)

Lemma land_255 (key : Z) : Z.land key 255 = (key mod 256)%Z.
Proof.
  change 255%Z with (Z.ones 8). rewrite Z.land_ones by lia. reflexivity.
Qed.

Lemma capture_loop_step {frame : Type} (image : frame) (key : Z)
    (turns : list (camera_turn frame)) :
  capture_loop (Grabbed image key :: turns)
  = if (key mod 256 =? 32)%Z then Some ([MsgImageCaptured], Some image)
    else if (key mod 256 =? 27)%Z then Some ([MsgCancelledByUser], None)
    else capture_loop turns.
Proof.
  cbn [capture_loop]. now rewrite land_255.
Qed.

Lemma capture_loop_idle {frame : Type} (before turns : list (camera_turn frame)) :
  Forall idle before -> capture_loop (before ++ turns) = capture_loop turns.
Proof.
  induction 1 as [|t before Ht _ IH]; [reflexivity|].
  destruct t as [|image key]; [destruct Ht|]. destruct Ht as [H32 H27].
  cbn [app]. rewrite capture_loop_step.
  apply Z.eqb_neq in H32, H27. now rewrite H32, H27.
Qed.

(** X16: [capture_image]'s loop returns a frame exactly when the first turn
    that is not idle is a frame grabbed with SPACE pressed, the key code being
    compared modulo 256; the frame returned is that one, and the only message
    is "image captured". *)
Theorem capture_loop_captures (frame : Type) (turns : list (camera_turn frame))
    (out : list camera_event) (image : frame) :
  capture_loop turns = Some (out, Some image)
  <->
  out = [MsgImageCaptured]
  /\ exists before key after,
       turns = before ++ Grabbed image key :: after
       /\ Forall idle before
       /\ (key mod 256 = 32)%Z.
Proof.
  split.
  - induction turns as [|[|im k] turns IH]; [discriminate | discriminate |].
    rewrite capture_loop_step.
    destruct (k mod 256 =? 32)%Z eqn:E32.
    + intros [= <- <-]. split; [reflexivity|].
      exists [], k, turns. apply Z.eqb_eq in E32. auto.
    + destruct (k mod 256 =? 27)%Z eqn:E27; [discriminate|].
      intros H. destruct (IH H) as (-> & before & key & after & -> & Hidle & Hkey).
      split; [reflexivity|].
      exists (Grabbed im k :: before), key, after.
      split; [reflexivity|]. split; [|exact Hkey].
      constructor; [|exact Hidle]. apply Z.eqb_neq in E32, E27. now split.
  - intros (-> & before & key & after & -> & Hidle & Hkey).
    rewrite (capture_loop_idle before _ Hidle), capture_loop_step.
    apply Z.eqb_eq in Hkey. now rewrite Hkey.
Qed.

(** The loop is still running at the end of the turns exactly when all of
    them were idle; a grab that fails, SPACE or ESC ends it. *)
Lemma capture_loop_waits (frame : Type) (turns : list (camera_turn frame)) :
  capture_loop turns = None <-> Forall idle turns.
Proof.
  split.
  - induction turns as [|[|im k] turns IH]; [constructor | discriminate |].
    rewrite capture_loop_step.
    destruct (k mod 256 =? 32)%Z eqn:E32; [discriminate|].
    destruct (k mod 256 =? 27)%Z eqn:E27; [discriminate|].
    intros H. constructor; [|now apply IH].
    apply Z.eqb_neq in E32, E27. now split.
  - intros H. rewrite <- (app_nil_r turns).
    now rewrite (capture_loop_idle turns [] H).
Qed.

Lemma capture_loop_one_message {frame : Type} (turns : list (camera_turn frame))
    (out : list camera_event) (captured_frame : option frame) :
  capture_loop turns = Some (out, captured_frame) ->
  (out = [MsgImageCaptured] /\ captured_frame <> None)
  \/ ((out = [MsgFailedToGrabFrame] \/ out = [MsgCancelledByUser])
      /\ captured_frame = None).
Proof.
  induction turns as [|[|im k] turns IH]; [discriminate | |].
  - intros [= <- <-]. right. auto.
  - rewrite capture_loop_step.
    destruct (k mod 256 =? 32)%Z; [intros [= <- <-]; left; now split|].
    destruct (k mod 256 =? 27)%Z; [intros [= <- <-]; right; auto|].
    exact IH.
Qed.

(** X17: a camera that was opened is released.  When [capture_image] returns
    after opening the webcam, it has printed the four lines of instructions,
    then exactly one of "image captured", "failed to grab frame" and
    "cancelled", and released the camera as its last action, once; a frame
    is returned exactly in the first case. *)
Theorem capture_image_releases (frame : Type) (turns : list (camera_turn frame))
    (out : list camera_event) (captured_frame : option frame) :
  capture_image (Some turns) = Some (out, captured_frame) ->
  exists m,
    out = [MsgCameraOpened; MsgPositionYourFace; MsgPressSpaceToCapture;
           MsgPressEscToCancel; m; CameraReleased]
    /\ (m = MsgImageCaptured \/ m = MsgFailedToGrabFrame
        \/ m = MsgCancelledByUser)
    /\ (m = MsgImageCaptured <-> captured_frame <> None).
Proof.
  unfold capture_image.
  destruct (capture_loop turns) as [[out' captured']|] eqn:E; [|discriminate].
  intros [= <- <-].
  destruct (capture_loop_one_message _ _ _ E) as [[-> Hc] | [[-> | ->] ->]].
  - exists MsgImageCaptured. split; [reflexivity|]. split; [auto|]. tauto.
  - exists MsgFailedToGrabFrame. split; [reflexivity|]. split; [auto|].
    split; [discriminate | congruence].
  - exists MsgCancelledByUser. split; [reflexivity|]. split; [auto|].
    split; [discriminate | congruence].
Qed.

Lemma capture_image_releases_witness :
  exists m,
    [MsgCameraOpened; MsgPositionYourFace; MsgPressSpaceToCapture;
     MsgPressEscToCancel; MsgImageCaptured; CameraReleased]
    = [MsgCameraOpened; MsgPositionYourFace; MsgPressSpaceToCapture;
       MsgPressEscToCancel; m; CameraReleased]
    /\ (m = MsgImageCaptured \/ m = MsgFailedToGrabFrame
        \/ m = MsgCancelledByUser)
    /\ (m = MsgImageCaptured <-> Some [1%Q; 3%Q] <> None).
Proof.
  apply (capture_image_releases (list Q)
           [Grabbed [3%Q] (-1)%Z; Grabbed [] 113%Z;
            Grabbed [1%Q; 3%Q] 1048608%Z; Grabbed [0%Q] 27%Z]).
  reflexivity.
Defined.

(** The camera of the scenario: two idle turns, then SPACE with a flag above
    the low byte of the key code. *)
Example capture_image_scenario :
  capture_image Session.camera
  = Some ([MsgCameraOpened; MsgPositionYourFace; MsgPressSpaceToCapture;
           MsgPressEscToCancel; MsgImageCaptured; CameraReleased],
          Some [1%Q; 3%Q]).
Proof. reflexivity. Qed.

(** ** The session: [main] *)

Lemma plain_console (out : list message) : Forall plain (map Console out).
Proof. apply Forall_forall. intros ev (m & <- & _)%in_map_iff. exact I. Qed.

Lemma plain_camera (out : list camera_event) : Forall plain (map Camera out).
Proof. apply Forall_forall. intros ev (m & <- & _)%in_map_iff. exact I. Qed.

Lemma plain_not_error (out : list event) (e : exn) :
  Forall plain out -> ~ In (ErrorReport e) out.
Proof. rewrite Forall_forall. intros H Hin. exact (H _ Hin). Qed.

Lemma plain_not_ended (out : list event) :
  Forall plain out -> ~ In SessionEnded out.
Proof. rewrite Forall_forall. intros H Hin. exact (H _ Hin). Qed.

Lemma gallery_of_parallel {encoding : Type}
    (read : string -> image_outcome encoding) (filenames : list string) :
  parallel (gallery_of read filenames).
Proof. unfold parallel, gallery_of. cbn. now rewrite !length_map. Qed.

Section MainFacts.

Context {frame encoding : Type}.
Variable distance : encoding -> encoding -> Q.
Variable face_encodings : frame -> list encoding.
Variable convert : list cell -> cell -> cell.

(** [main] for a directory that exists: the printed lines of the loading,
    then what the attempt shows and prints, then its error, if any, and the
    end of the session. *)
Lemma main_listed (filenames : list string)
    (read : string -> image_outcome encoding)
    (camera : option (list (camera_turn frame)))
    (now : datetime) (write_failure : option (exn * workbook)) (file : workbook) :
  main distance face_encodings convert (Some filenames) read camera now
    write_failure file
  = match run_with_camera distance face_encodings convert
            (gallery_of read filenames) camera now write_failure file with
    | None => None
    | Some ((out', Return _), file') =>
        Some (map Console (fst (load_known_faces (Some filenames) read))
              ++ out' ++ [SessionEnded], file')
    | Some ((out', Raise e), file') =>
        Some (map Console (fst (load_known_faces (Some filenames) read))
              ++ out' ++ [ErrorReport e; SessionEnded], file')
    end.
Proof.
  unfold main. rewrite load_known_faces_eq. reflexivity.
Qed.

(** The attempt of [main], by what the camera gives. *)
Lemma run_with_camera_eq (self : AttendanceSystem encoding)
    (camera : option (list (camera_turn frame)))
    (now : datetime) (write_failure : option (exn * workbook)) (file : workbook) :
  run_with_camera distance face_encodings convert self camera now write_failure
    file
  = if List.length (known_faces self) =? 0
    then Some (([Console MsgNoKnownFaces], Return tt), file)
    else match capture_image camera with
         | None => None
         | Some (shown, image) =>
             Some ((map Camera shown
                    ++ map Console
                         (fst (fst (run convert distance self
                                      (option_map face_encodings image) now
                                      write_failure file))),
                    snd (fst (run convert distance self
                                (option_map face_encodings image) now
                                write_failure file))),
                   snd (run convert distance self
                          (option_map face_encodings image) now write_failure
                          file))
         end.
Proof.
  unfold run_with_camera. destruct (_ =? 0); [reflexivity|].
  destruct (capture_image camera) as [[shown image]|]; [|reflexivity].
  now destruct (run convert distance self (option_map face_encodings image) now
                  write_failure file) as [[out r] file'].
Qed.

Lemma run_with_camera_plain (self : AttendanceSystem encoding)
    (camera : option (list (camera_turn frame)))
    (now : datetime) (write_failure : option (exn * workbook)) (file file' : workbook)
    (out : list event) (r : outcome unit) :
  run_with_camera distance face_encodings convert self camera now write_failure
    file = Some ((out, r), file') ->
  Forall plain out.
Proof.
  rewrite run_with_camera_eq. destruct (_ =? 0).
  - intros [= <- _ _]. constructor; [exact I | constructor].
  - destruct (capture_image camera) as [[shown image]|]; [|discriminate].
    intros [= <- _ _]. apply Forall_app.
    split; [apply plain_camera | apply plain_console].
Qed.

End MainFacts.

Lemma run_file (encoding : Type) (convert : list cell -> cell -> cell)
    (distance : encoding -> encoding -> Q) (self : AttendanceSystem encoding)
    (captured : option (list encoding)) (now : datetime)
    (write_failure : option (exn * workbook)) (file : workbook) :
  snd (run convert distance self captured now write_failure file) = file
  \/ (exists student_name roll_no,
        snd (run convert distance self captured now write_failure file)
        = Sheet (frame_of convert file ++ [new_row student_name roll_no now]))
  \/ (exists e remains,
        write_failure = Some (e, remains)
        /\ snd (run convert distance self captured now write_failure file)
           = remains).
Proof.
  unfold run. destruct (List.length (known_faces self) =? 0); [now left|].
  destruct captured as [face_encodings|]; [|now left].
  destruct (recognize_face distance self face_encodings (6 # 10))
    as [out [[[student_name roll_no]|]|e]]; try now left.
  destruct (mark_attendance_file convert file student_name roll_no now
              write_failure)
    as [[_ Hf] | [(e & remains & Hw & _ & Hf) | (_ & _ & _ & _ & Hf)]];
    destruct (mark_attendance convert file student_name roll_no now write_failure)
      as [marked file']; cbn [snd] in *.
  - now left.
  - right. right. now exists e, remains.
  - right. left. now exists student_name, roll_no.
Qed.

(** X18: [main] always closes the session and writes at most one row.  When
    it ends, the last thing printed is the end of the session, printed once,
    and the workbook is as it was, or is the sheet of the frame
    [pd.read_excel] returned followed by one new row, written under the
    clock's date and time, or is what a failed write left. *)
Theorem main_closes_session (frame encoding : Type)
    (distance : encoding -> encoding -> Q)
    (face_encodings : frame -> list encoding)
    (convert : list cell -> cell -> cell)
    (listing : option (list string)) (read : string -> image_outcome encoding)
    (camera : option (list (camera_turn frame)))
    (now : datetime) (write_failure : option (exn * workbook)) (file file' : workbook)
    (out : list event) :
  main distance face_encodings convert listing read camera now write_failure file
  = Some (out, file') ->
  (exists before, out = before ++ [SessionEnded] /\ ~ In SessionEnded before)
  /\ (file' = file
      \/ (exists student_name roll_no,
            file' = Sheet (frame_of convert file
                           ++ [new_row student_name roll_no now]))
      \/ (exists e remains,
            write_failure = Some (e, remains) /\ file' = remains)).
Proof.
  destruct listing as [filenames|].
  - rewrite main_listed.
    destruct (run_with_camera distance face_encodings convert
                (gallery_of read filenames) camera now write_failure file)
      as [[[out' r] f]|] eqn:R; [|discriminate].
    pose proof (run_with_camera_plain _ _ _ _ _ _ _ _ _ _ _ R) as Hplain.
    assert (Hfile : f = file
                    \/ (exists student_name roll_no,
                          f = Sheet (frame_of convert file
                                     ++ [new_row student_name roll_no now]))
                    \/ (exists e remains,
                          write_failure = Some (e, remains) /\ f = remains)).
    { rewrite run_with_camera_eq in R. destruct (_ =? 0).
      - injection R as _ _ <-. now left.
      - destruct (capture_image camera) as [[shown image]|]; [|discriminate].
        injection R as _ _ <-. apply run_file. }
    set (lout := fst (load_known_faces (Some filenames) read)).
    assert (Hbefore : ~ In SessionEnded (map Console lout ++ out')).
    { intros [H | H]%in_app_or.
      - exact (plain_not_ended _ (plain_console lout) H).
      - exact (plain_not_ended _ Hplain H). }
    destruct r as [[]|e]; intros [= <- <-]; (split; [|exact Hfile]).
    + exists (map Console lout ++ out'). now rewrite app_assoc.
    + exists (map Console lout ++ out' ++ [ErrorReport e]). split.
      * now rewrite <- !app_assoc.
      * rewrite app_assoc. intros [H | [H | []]]%in_app_or; [auto | discriminate].
  - intros [= <- <-]. split; [|now left].
    exists [ErrorReport (ValueError "Directory not found")]. split; [reflexivity|].
    intros [H | []]. discriminate.
Qed.

Lemma main_closes_session_witness :
  main Scenario.distance Session.face_encodings Scenario.convert
    Session.directory Scenario.read Session.camera Scenario.morning None NoFile
  = Some (Session.printed, Sheet [new_row "JohnDoe" "101" Scenario.morning])
  /\ (exists before,
        Session.printed = before ++ [SessionEnded]
        /\ ~ In SessionEnded before)
  /\ (Sheet [new_row "JohnDoe" "101" Scenario.morning] = NoFile
      \/ (exists student_name roll_no,
            Sheet [new_row "JohnDoe" "101" Scenario.morning]
            = Sheet (frame_of Scenario.convert NoFile
                     ++ [new_row student_name roll_no Scenario.morning]))
      \/ (exists e remains,
            @None (exn * workbook) = Some (e, remains)
            /\ Sheet [new_row "JohnDoe" "101" Scenario.morning] = remains)).
Proof.
  split; [reflexivity|].
  apply (main_closes_session (list Q) Q Scenario.distance Session.face_encodings
           Scenario.convert Session.directory Scenario.read Session.camera
           Scenario.morning None NoFile).
  reflexivity.
Defined.

(** X19: what [main] reports as an error.  When it ends, it has printed the
    error [e] exactly in two cases: the directory of known faces is missing
    ([e] is the [ValueError] of [load_known_faces], and the camera is not
    opened); or a frame was captured, its first face was recognized, and the
    ledger failed: reading the workbook raised [e] (any failure but
    [FileNotFoundError]), or the check found no row and writing raised [e].
    When an error is reported the workbook is as it was, or, after a failed
    write, what that write left.  The calls of the camera and of the face
    library outside the [try] of [load_known_faces] are taken to return, and
    the path of the known faces, when it exists, to be a directory. *)
Theorem main_error_report (frame encoding : Type)
    (distance : encoding -> encoding -> Q)
    (face_encodings : frame -> list encoding)
    (convert : list cell -> cell -> cell)
    (listing : option (list string)) (read : string -> image_outcome encoding)
    (camera : option (list (camera_turn frame)))
    (now : datetime) (write_failure : option (exn * workbook)) (file file' : workbook)
    (out : list event) :
  main distance face_encodings convert listing read camera now write_failure file
  = Some (out, file') ->
  (forall e,
     In (ErrorReport e) out
     <->
     (listing = None /\ e = ValueError "Directory not found"
      /\ out = [ErrorReport e; SessionEnded])
     \/ exists filenames shown image student_name roll_no,
          listing = Some filenames
          /\ capture_image camera = Some (shown, Some image)
          /\ known_faces (gallery_of read filenames) <> []
          /\ snd (recognize_face distance (gallery_of read filenames)
                    (face_encodings image) (6 # 10))
             = Return (Some (student_name, roll_no))
          /\ (read_error file = Some e
              \/ (read_error file = None
                  /\ check_duplicate_attendance convert file roll_no
                       (strftime_date now) = Return false
                  /\ write_raises write_failure e)))
  /\ (forall e,
        In (ErrorReport e) out ->
        file' = file
        \/ exists remains, write_failure = Some (e, remains) /\ file' = remains).
Proof.
  destruct listing as [filenames|].
  - rewrite main_listed, run_with_camera_eq.
    set (G := gallery_of read filenames).
    set (lout := fst (load_known_faces (Some filenames) read)).
    destruct (List.length (known_faces G) =? 0) eqn:L.
    { intros [= <- <-]. split; [|now left]. intros e. split.
      - intros [H | [H | [H | []]]]%in_app_or; try discriminate.
        exfalso. exact (plain_not_error _ e (plain_console lout) H).
      - intros [([=] & _) | (f & sh & im & n & r & [= <-] & _ & Hne & _)].
        exfalso. apply Hne. fold G.
        destruct (known_faces G); [reflexivity | discriminate]. }
    destruct (capture_image camera) as [[shown image]|] eqn:C; [|discriminate].
    set (R := run convert distance G (option_map face_encodings image) now
                write_failure file).
    assert (Hraise : forall e, snd (fst R) = Raise e <->
              exists im student_name roll_no,
                image = Some im
                /\ known_faces G <> []
                /\ snd (recognize_face distance G (face_encodings im) (6 # 10))
                   = Return (Some (student_name, roll_no))
                /\ (read_error file = Some e
                    \/ (read_error file = None
                        /\ check_duplicate_attendance convert file roll_no
                             (strftime_date now) = Return false
                        /\ write_raises write_failure e))).
    { intros e. unfold R.
      rewrite (run_raises encoding convert distance G _ now write_failure file e
                 (gallery_of_parallel read filenames)).
      split.
      - intros (f & n & r & Hc & Hne & Hrec & Hm).
        destruct image as [im|]; [|discriminate]. injection Hc as <-.
        exists im, n, r. split; [reflexivity|]. split; [exact Hne|].
        split; [exact Hrec|].
        apply mark_attendance_raises in Hm.
        destruct Hm as [Hm | (Hr & Hs & Hw)]; [now left | right].
        split; [exact Hr|]. split; [|exact Hw].
        now rewrite check_duplicate_attendance_eq, Hr, Hs.
      - intros (im & n & r & -> & Hne & Hrec & Hm).
        exists (face_encodings im), n, r. split; [reflexivity|].
        split; [exact Hne|]. split; [exact Hrec|].
        apply mark_attendance_raises.
        destruct Hm as [Hm | (Hr & Hs & Hw)]; [now left | right].
        split; [exact Hr|]. split; [|exact Hw].
        rewrite check_duplicate_attendance_eq, Hr in Hs. now injection Hs. }
    assert (Hunchanged : forall e,
              snd (fst R) = Raise e ->
              snd R = file
              \/ exists remains,
                   write_failure = Some (e, remains) /\ snd R = remains).
    { intros e He. unfold R in *.
      apply (run_raises encoding convert distance G _ now write_failure file e
               (gallery_of_parallel read filenames)) in He.
      destruct He as (f & n & r & Hc & Hne & Hrec & Hm). rewrite Hc.
      destruct (run_recognized convert distance G f now write_failure file n r
                  Hne Hrec) as [_ ->].
      destruct (mark_attendance_file convert file n r now write_failure)
        as [[_ Hf] | [(e' & remains & Hw & He' & Hf) | (Ht & _)]].
      - now left.
      - right. exists remains. split; [congruence | exact Hf].
      - congruence. }
    set (shown' := map Camera shown ++ map Console (fst (fst R))).
    assert (Hplain : forall e, ~ In (ErrorReport e) (map Console lout ++ shown')).
    { intros e [H | H]%in_app_or.
      - exact (plain_not_error _ e (plain_console lout) H).
      - apply in_app_or in H. destruct H as [H | H].
        + exact (plain_not_error _ e (plain_camera shown) H).
        + exact (plain_not_error _ e (plain_console _) H). }
    destruct (snd (fst R)) as [[]|e0] eqn:E; intros [= <- <-].
    + split.
      * intros e. split.
        -- rewrite app_assoc. intros [H | [H | []]]%in_app_or; [|discriminate].
           exfalso. exact (Hplain e H).
        -- intros [([=] & _) | (f & sh & im & n & r & [= <-] & [= _ ->] & Hrest)].
           assert (Hr : Return tt = Raise e :> outcome unit); [|discriminate].
           apply Hraise. exists im, n, r. split; [reflexivity | exact Hrest].
      * intros e He. rewrite app_assoc in He.
        apply in_app_or in He. destruct He as [H | [H | []]]; [|discriminate].
        exfalso. exact (Hplain e H).
    + split.
      2:{ intros e He. rewrite app_assoc in He.
          apply in_app_or in He.
          destruct He as [H | [H | [H | []]]];
            [exfalso; exact (Hplain e H) | | discriminate].
          injection H as <-. now apply Hunchanged. }
      intros e. split.
      * rewrite app_assoc.
        intros [H | [H | [H | []]]]%in_app_or;
          [exfalso; exact (Hplain e H) | | discriminate].
        injection H as <-. right.
        destruct (proj1 (Hraise e0) eq_refl) as (im & n & r & -> & Hrest).
        exists filenames, shown, im, n, r.
        split; [reflexivity|]. split; [reflexivity|]. exact Hrest.
      * intros [([=] & _) | (f & sh & im & n & r & [= <-] & [= _ ->] & Hrest)].
        assert (Hr : Raise e0 = Raise e :> outcome unit)
          by (apply Hraise; exists im, n, r; split;
              [reflexivity | exact Hrest]).
        injection Hr as ->. rewrite app_assoc. apply in_or_app. right.
        now left.
  - cbn. intros [= <- <-]. split; [|now left]. intros e. split.
    + intros [H | [H | []]]; [|discriminate]. injection H as <-. left. auto.
    + intros [(_ & -> & _) | (f & sh & im & n & r & [=] & _)]. now left.
Qed.

Lemma main_error_report_witness :
  main Scenario.distance Session.face_encodings Scenario.convert
    Session.directory Scenario.read Session.camera Scenario.morning
    (Some (OSError "Permission denied", NoFile)) NoFile
  = Some (Session.printed_locked, NoFile)
  /\ In (ErrorReport (OSError "Permission denied")) Session.printed_locked.
Proof.
  split; [reflexivity|].
  apply (proj1 (main_error_report (list Q) Q Scenario.distance
                  Session.face_encodings Scenario.convert Session.directory
                  Scenario.read Session.camera Scenario.morning
                  (Some (OSError "Permission denied", NoFile)) NoFile NoFile
                  Session.printed_locked eq_refl)).
  right.
  exists ["JohnDoe_101.JPG"%string; "notes.txt"%string; "wall.png"%string;
          "broken.jpeg"%string],
    [MsgCameraOpened; MsgPositionYourFace; MsgPressSpaceToCapture;
     MsgPressEscToCancel; MsgImageCaptured; CameraReleased],
    [1%Q; 3%Q], "JohnDoe"%string, "101"%string.
  split; [reflexivity|]. split; [reflexivity|]. split; [discriminate|].
  split; [reflexivity|]. right.
  split; [reflexivity|]. split; [reflexivity|]. now exists NoFile.
Defined.

(** The session of the scenario: the directory is loaded, SPACE captures a
    frame with two faces, the first is recognized and marked. *)
Example main_scenario :
  main Scenario.distance Session.face_encodings Scenario.convert
    Session.directory Scenario.read Session.camera Scenario.morning None NoFile
  = Some
      (Session.printed,
       Sheet [ {| col_roll_no := Text "101"; col_name := Text "JohnDoe";
                  col_date := Text "2024-03-07";
                  col_time := Text "09:05:00" |} ]).
Proof. reflexivity. Qed.

(** X20: [main] comes to an end unless the camera loop goes on.  It is still
    running at the end of the camera's turns exactly when the directory
    exists, some face was loaded from it, the webcam opened and every turn
    was idle (a frame grabbed with neither SPACE nor ESC pressed); a missing
    directory, an empty gallery, a webcam that does not open, a failed grab,
    SPACE and ESC all end it. *)
Theorem main_waits_on_camera (frame encoding : Type)
    (distance : encoding -> encoding -> Q)
    (face_encodings : frame -> list encoding)
    (convert : list cell -> cell -> cell)
    (listing : option (list string)) (read : string -> image_outcome encoding)
    (camera : option (list (camera_turn frame)))
    (now : datetime) (write_failure : option (exn * workbook)) (file : workbook) :
  main distance face_encodings convert listing read camera now write_failure file
  = None
  <->
  exists filenames turns,
    listing = Some filenames
    /\ flat_map (entry read) filenames <> []
    /\ camera = Some turns
    /\ Forall idle turns.
Proof.
  destruct listing as [filenames|].
  - rewrite main_listed, run_with_camera_eq. unfold gallery_of.
    cbn [known_faces]. rewrite length_map.
    destruct (flat_map (entry read) filenames) as [|g gallery] eqn:G.
    + cbn. split; [discriminate|].
      intros (f' & turns & [= <-] & Hne & _). rewrite G in Hne. congruence.
    + cbn [List.length Nat.eqb]. destruct camera as [turns|].
      * unfold capture_image.
        destruct (capture_loop turns) as [[shown image]|] eqn:C.
        -- split.
           ++ destruct (snd (fst (run convert distance _
                                    (option_map face_encodings image) now
                                    write_failure file))) as [[]|e]; discriminate.
           ++ intros (f' & turns' & _ & _ & [= <-] & Hidle).
              apply capture_loop_waits in Hidle. congruence.
        -- split; [intros _ | reflexivity].
           exists filenames, turns. rewrite G.
           split; [reflexivity|]. split; [discriminate|].
           split; [reflexivity|]. now apply capture_loop_waits.
      * cbn [capture_image].
        split.
        -- destruct (snd (fst (run convert distance _
                                 (option_map face_encodings None) now
                                 write_failure file))) as [[]|e]; discriminate.
        -- intros (f' & turns' & _ & _ & [=] & _).
  - split; [discriminate|]. intros (f' & turns & [=] & _).
Qed.
